(** * SraMetaGo: a shallow embedding of [main.go]

    The program lists SRA record identifiers, cuts them into batches, fetches
    every batch with a retrying worker goroutine (at most [maxWorkers] at a
    time), and flattens every decoded package into tab separated rows.

    Go strings are byte sequences: they are modelled by [string] (a list of
    8-bit [ascii]).  The XML decoder, the HTTP client and the progress bar
    are libraries: the decoded records, the outcome of every fetch and the
    calls made on the bar are the interface of the model. *)

From Stdlib Require Import String Ascii ZArith NArith Bool Arith Lia.
From Stdlib Require Import List.
From Stdlib Require Import Permutation Sorted.
Import ListNotations.

Local Open Scope Z_scope.

(* ================================================================== *)
(** * Constants *)

Definition batchSize : Z := 100.
Definition maxWorkers : nat := 10.
(** [const maxRetries = 7], local to [main]. *)
Definition maxRetries : nat := 7.

(** [time.Second] in nanoseconds, the unit of [time.Duration]. *)
Definition Second : Z := 1000000000.

(** Conversion to [int32] (two's complement wrap-around), as in
    [int32(len(batches))] and [atomic.AddInt32]. *)
Definition int32 (z : Z) : Z := (z + 2 ^ 31) mod 2 ^ 32 - 2 ^ 31.

(* ================================================================== *)
(** * Outcomes of Go code that may panic or loop *)

Inductive outcome (A : Type) : Type :=
| Returned (a : A)
| Panicked
| OutOfFuel.
Arguments Returned {A} a.
Arguments Panicked {A}.
Arguments OutOfFuel {A}.

(* ================================================================== *)
(** * The record model (the structs the XML decoder fills) *)

Module externalID.
Record t : Type := mk { Namespace : string; Value : string }.
End externalID.

Module studyRef.
Record t : Type := mk { ExternalIDs : list externalID.t }.
End studyRef.

Module LibraryDescriptor.
Record t : Type := mk { Strategy : string; Source : string; Selection : string }.
End LibraryDescriptor.

Module Experiment.
Record t : Type := mk {
  Accession : string;
  Title : string;
  Library : LibraryDescriptor.t;
  Study : studyRef.t;
  BioProject : string
}.
End Experiment.

Module Identifier.
Record t : Type := mk { Namespace : string; Value : string }.
End Identifier.

Module SampleAttribute.
Record t : Type := mk { Tag : string; Value : string }.
End SampleAttribute.

Module Sample.
Record t : Type := mk {
  Accession : string;
  Identifiers : list Identifier.t;
  Attributes : list SampleAttribute.t;
  Title : string
}.
End Sample.

Module Run.
Record t : Type := mk {
  Accession : string;
  TotalSpots : string;
  TotalBases : string;
  LoadDate : string;
  ReleaseDate : string
}.
End Run.

Module RunSet.
Record t : Type := mk { Runs : list Run.t }.
End RunSet.

Module Platform.
Record Illumina_t : Type := mkIllumina { Instrument : string }.
Record t : Type := mk { Illumina : Illumina_t }.
End Platform.

Module Organization.
Record t : Type := mk { Name : string; Type_ : string }.
End Organization.

Module ExperimentPackage.
Record t : Type := mk {
  Experiment : Experiment.t;
  Sample : Sample.t;
  RunSet : RunSet.t;
  Platform : Platform.t;
  Organization : Organization.t;
  ReleaseDate : string;
  LoadDate : string
}.
End ExperimentPackage.

Module ExperimentPackageSet.
Record t : Type := mk { Packages : list ExperimentPackage.t }.
End ExperimentPackageSet.

(* ================================================================== *)
(** * chunkIDs *)

(** The loop of [chunkIDs]:
<<
    for size < len(ids) {
        ids, chunks = ids[size:], append(chunks, ids[0:size])
    }
    return append(chunks, ids)
>>
    A negative [size] makes [ids[size:]] panic; [size = 0] on a non-empty
    slice never leaves the loop, which the model reports as [OutOfFuel]. *)
Fixpoint chunkIDs_loop (fuel : nat) (ids : list string)
  (chunks : list (list string)) (size : Z) : outcome (list (list string)) :=
  if size <? Z.of_nat (length ids) then
    if size <? 0 then Panicked
    else
      match fuel with
      | O => OutOfFuel
      | S fuel' =>
          chunkIDs_loop fuel'
            (skipn (Z.to_nat size) ids)
            (chunks ++ [firstn (Z.to_nat size) ids])
            size
      end
  else Returned (chunks ++ [ids]).

(** [chunkIDs(ids, size)]: [chunks] starts as the nil slice.  The loop
    shortens [ids] on every turn when [size] is positive, so [length ids]
    turns are enough. *)
Definition chunkIDs (ids : list string) (size : Z) : outcome (list (list string)) :=
  chunkIDs_loop (length ids) ids [] size.

(** Ceiling of [n / s] for positive [s]. *)
Definition ceil_div (n s : Z) : Z := (n + s - 1) / s.

(** All but the last element of a list of batches. *)
Definition all_but_last (bs : list (list string)) : list (list string) :=
  removelast bs.

(* ================================================================== *)
(** * Strings: the library functions the program calls *)

Definition tab : string := String "009"%char EmptyString.
Definition newline : string := String "010"%char EmptyString.

(** [utf8.RuneSelf]: bytes below it are single-byte (ASCII) runes. *)
Definition RuneSelf : N := 128.

(** The table [asciiSpace] of package [strings]:
    ['\t'], ['\n'], ['\v'], ['\f'], ['\r'] and [' ']. *)
Definition asciiSpace (b : N) : bool :=
  ((b =? 9) || (b =? 10) || (b =? 11) || (b =? 12) || (b =? 13) || (b =? 32))%N.

Definition rev_string (s : string) : string :=
  string_of_list_ascii (rev (list_ascii_of_string s)).

(** ASCII lower-casing of one byte and of a string (used to state what the
    ASCII path of [strings.EqualFold] decides). *)
Definition lower_byte (b : N) : N :=
  if ((65 <=? b) && (b <=? 90))%N then (b + 32)%N else b.

Fixpoint lower_ascii (s : string) : list N :=
  match s with
  | EmptyString => []
  | String c s' => lower_byte (N_of_ascii c) :: lower_ascii s'
  end.

(** Every byte of [s] is below [utf8.RuneSelf]. *)
Fixpoint is_ascii (s : string) : bool :=
  match s with
  | EmptyString => true
  | String c s' => (N_of_ascii c <? RuneSelf)%N && is_ascii s'
  end.

(** Stand-ins for the Unicode paths, to run the model on ASCII inputs, on
    which those paths are never entered. *)
Definition ascii_only_fold (s t : string) : bool := false.
Definition ascii_only_trim (s : string) : string := s.

Section Pipeline.

(** The Unicode paths of [strings.EqualFold] and [strings.TrimSpace] walk
    the tables of package [unicode], which are no part of this program: they
    are parameters.  [EqualFold_hasUnicode s t] is the label [hasUnicode] of
    [EqualFold] run on the remainders [s[i:]] and [t[i:]];
    [TrimFunc_IsSpace s] is [TrimFunc(s, unicode.IsSpace)] and
    [TrimRightFunc_IsSpace s] is [TrimRightFunc(s, unicode.IsSpace)]. *)
Variable EqualFold_hasUnicode : string -> string -> bool.
Variable TrimFunc_IsSpace : string -> string.
Variable TrimRightFunc_IsSpace : string -> string.

(** [strings.EqualFold]: the byte loop (ASCII fast path), which hands the
    remainders over to the Unicode path at the first byte pair with a byte
    of [RuneSelf] or more. *)
Fixpoint EqualFold (s t : string) : bool :=
  match s, t with
  | String sc s', String tc t' =>
      let sr := N_of_ascii sc in
      let tr := N_of_ascii tc in
      if (RuneSelf <=? N.lor sr tr)%N then EqualFold_hasUnicode s t
      else if (tr =? sr)%N then EqualFold s' t'
      else
        let lo := N.min sr tr in
        let hi := N.max sr tr in
        if ((65 <=? lo) && (lo <=? 90) && (hi =? lo + 32))%N
        then EqualFold s' t'
        else false
  | EmptyString, EmptyString => true
  | _, _ => false
  end.

(** Second loop of [strings.TrimSpace], on the reversal of [s[start:]]:
    [stop] moves left over ASCII space bytes. *)
Fixpoint TrimSpace_stop (r : string) : string :=
  match r with
  | EmptyString => EmptyString
  | String c r' =>
      if (RuneSelf <=? N_of_ascii c)%N then TrimRightFunc_IsSpace (rev_string r)
      else if asciiSpace (N_of_ascii c) then TrimSpace_stop r'
      else rev_string r
  end.

(** [strings.TrimSpace]: [start] moves right over ASCII space bytes, then
    [stop] moves left. *)
Fixpoint TrimSpace (s : string) : string :=
  match s with
  | EmptyString => EmptyString
  | String c s' =>
      if (RuneSelf <=? N_of_ascii c)%N then TrimFunc_IsSpace s
      else if asciiSpace (N_of_ascii c) then TrimSpace s'
      else TrimSpace_stop (rev_string s)
  end.

(* ------------------------------------------------------------------ *)
(** ** Experiment.UnmarshalXML *)

Definition set_BioProject (e : Experiment.t) (v : string) : Experiment.t :=
  Experiment.mk (Experiment.Accession e) (Experiment.Title e)
    (Experiment.Library e) (Experiment.Study e) v.

(** The loop over [e.Study.ExternalIDs]: the first identifier whose
    namespace is ["BioProject"] sets [e.BioProject] and ends the loop. *)
Fixpoint UnmarshalXML_scan (ids : list externalID.t) (e : Experiment.t)
  : Experiment.t :=
  match ids with
  | [] => e
  | ex :: rest =>
      if (externalID.Namespace ex =? "BioProject")%string
      then set_BioProject e (TrimSpace (externalID.Value ex))
      else UnmarshalXML_scan rest e
  end.

(** [UnmarshalXML]: [aux] is what [d.DecodeElement(&aux, &start)] produced,
    the decoded element or the decoder's error, which is returned as it is. *)
Definition UnmarshalXML (aux : Experiment.t + string) : Experiment.t + string :=
  match aux with
  | inr err => inr err
  | inl a => inl (UnmarshalXML_scan (studyRef.ExternalIDs (Experiment.Study a)) a)
  end.

(* ------------------------------------------------------------------ *)
(** ** extractSampleValue and extractIdentifier *)

Fixpoint extractSampleValue (attrs : list SampleAttribute.t) (key : string)
  : string :=
  match attrs with
  | [] => EmptyString
  | attr :: rest =>
      if EqualFold (SampleAttribute.Tag attr) key
      then SampleAttribute.Value attr
      else extractSampleValue rest key
  end.

Fixpoint extractIdentifier (ids : list Identifier.t) (ns : string) : string :=
  match ids with
  | [] => EmptyString
  | id :: rest =>
      if (Identifier.Namespace id =? ns)%string
      then Identifier.Value id
      else extractIdentifier rest ns
  end.

(* ------------------------------------------------------------------ *)
(** ** writePackage *)

(** The output file: the payloads of the [WriteString] calls made on it,
    oldest first.  Its contents are their concatenation. *)
Definition File : Type := list string.

Definition WriteString (tsv : File) (s : string) : File := tsv ++ [s].

Definition contents (tsv : File) : string := String.concat EmptyString tsv.

(** [fmt.Sprintf("%s\t%s\t%s\t%s\t%s\t%s\t%s\t%s\t%s\t%s\n", ...)]. *)
Definition Sprintf_row (c1 c2 c3 c4 c5 c6 c7 c8 c9 c10 : string) : string :=
  (c1 ++ tab ++ c2 ++ tab ++ c3 ++ tab ++ c4 ++ tab ++ c5 ++ tab ++
   c6 ++ tab ++ c7 ++ tab ++ c8 ++ tab ++ c9 ++ tab ++ c10 ++ newline)%string.

(** The local [bioproject] of [writePackage]. *)
Definition bioproject_of (pkg : ExperimentPackage.t) : string :=
  let exp := ExperimentPackage.Experiment pkg in
  let sample := ExperimentPackage.Sample pkg in
  let bioproject := Experiment.BioProject exp in
  if (bioproject =? "")%string then
    let bioproject := extractIdentifier (Sample.Identifiers sample) "BioProject" in
    if (bioproject =? "")%string then
      extractSampleValue (Sample.Attributes sample) "bioproject"
    else bioproject
  else bioproject.

(** The local [submitter] of [writePackage]. *)
Definition submitter_of (pkg : ExperimentPackage.t) : string :=
  let sample := ExperimentPackage.Sample pkg in
  let submitter := Organization.Name (ExperimentPackage.Organization pkg) in
  if (submitter =? "")%string then
    let submitter := extractSampleValue (Sample.Attributes sample) "submitter" in
    if (submitter =? "")%string then
      let submitter := extractSampleValue (Sample.Attributes sample) "submitted_by" in
      if (submitter =? "")%string then
        extractSampleValue (Sample.Attributes sample) "center_name"
      else submitter
    else submitter
  else submitter.

(** The body of the loop over [pkg.RunSet.Runs]: the line written for one
    run. *)
Definition run_line (pkg : ExperimentPackage.t)
  (bioproject biosample submitter collDate geoLoc pop : string) (run : Run.t)
  : string :=
  let releaseDate := Run.ReleaseDate run in
  let loadDate := Run.LoadDate run in
  let releaseDate :=
    if (releaseDate =? "")%string then ExperimentPackage.ReleaseDate pkg
    else releaseDate in
  let loadDate :=
    if (loadDate =? "")%string then ExperimentPackage.LoadDate pkg
    else loadDate in
  Sprintf_row (Run.Accession run) bioproject biosample submitter collDate
    geoLoc pop (Run.TotalSpots run) releaseDate loadDate.

Definition writePackage (pkg : ExperimentPackage.t) (tsv : File) : File :=
  let sample := ExperimentPackage.Sample pkg in
  let biosample := extractIdentifier (Sample.Identifiers sample) "BioSample" in
  let bioproject := bioproject_of pkg in
  let collDate := extractSampleValue (Sample.Attributes sample) "collection_date" in
  let geoLoc := extractSampleValue (Sample.Attributes sample) "geo_loc_name" in
  let pop := extractSampleValue (Sample.Attributes sample) "ww_population" in
  let submitter := submitter_of pkg in
  fold_left
    (fun tsv run =>
       WriteString tsv
         (run_line pkg bioproject biosample submitter collDate geoLoc pop run))
    (RunSet.Runs (ExperimentPackage.RunSet pkg)) tsv.

(** The header line [main] writes first. *)
Definition header : string :=
  ("RunAccession" ++ tab ++ "BioProject" ++ tab ++ "BioSample" ++ tab ++
   "Submitter" ++ tab ++ "CollectionDate" ++ tab ++ "Location" ++ tab ++
   "Population" ++ tab ++ "TotalSpots" ++ tab ++ "ReleaseDate" ++ tab ++
   "LoadDate" ++ newline)%string.

(** The loop of [main] over the drained result channel:
<<
    for pkgSet := range results {
        for _, pkg := range pkgSet.Packages { writePackage(pkg, tsv) }
    }
>> *)
Definition write_results (results : list ExperimentPackageSet.t) (tsv : File)
  : File :=
  fold_left
    (fun tsv pkgSet =>
       fold_left (fun tsv pkg => writePackage pkg tsv)
         (ExperimentPackageSet.Packages pkgSet) tsv)
    results tsv.

(* ================================================================== *)
(** * The fetch-retry worker *)

(** What one call of [fetchBatch] returns: the decoded set ([err == nil]) or
    the error. *)
Definition fetched : Type := (ExperimentPackageSet.t + string)%type.

(** The effects of a worker goroutine, in program order. *)
Inductive event : Type :=
| Sleep (d : Z)                          (* time.Sleep(sleepDuration), in ns *)
| LogRetrying (d : Z)                    (* "Retrying batch after %v...\n" *)
| FetchBatch (attempt : nat)             (* pkgSet, err = fetchBatch(idList) *)
| Send (pkgSet : ExperimentPackageSet.t) (* results <- pkgSet *)
| AddCompleted                           (* atomic.AddInt32(&completed, 1) *)
| LogFailed (err : option string).       (* "Failed batch after retries: %v\n" *)

(** [time.Duration(math.Pow(2, float64(attempt))) * time.Second]: the
    powers of two the loop reaches are exact in [float64]. *)
Definition sleepDuration (attempt : nat) : Z := 2 ^ Z.of_nat attempt * Second.

(** The retry loop
<<
    for attempt := 0; attempt < maxRetries; attempt++ {
        if attempt > 0 { sleep; if attempt > 5 { log } }
        pkgSet, err = fetchBatch(idList)
        if err == nil { results <- pkgSet; atomic.AddInt32(&completed, 1); return }
    }
    fmt.Fprintf(os.Stderr, "Failed batch after retries: %v\n", err)
>>
    with [remaining = maxRetries - attempt] turns left, [err] the value of the
    variable [err], and [fetch attempt] what the call of [fetchBatch] made in
    turn [attempt] returns. *)
Fixpoint worker_loop (remaining attempt : nat) (err : option string)
  (fetch : nat -> fetched) : list event :=
  match remaining with
  | O => [LogFailed err]
  | S remaining' =>
      (if (0 <? attempt)%nat
       then Sleep (sleepDuration attempt)
            :: (if (5 <? attempt)%nat
                then [LogRetrying (sleepDuration attempt)] else [])
       else [])
      ++ FetchBatch attempt
         :: match fetch attempt with
            | inl pkgSet => [Send pkgSet; AddCompleted]
            | inr e => worker_loop remaining' (S attempt) (Some e) fetch
            end
  end.

Definition worker (fetch : nat -> fetched) : list event :=
  worker_loop maxRetries 0 None fetch.
Arguments worker : simpl never.

(** Counting and projecting the events of a trace. *)
Definition is_fetch (e : event) : bool :=
  match e with FetchBatch _ => true | _ => false end.

Definition sends (evs : list event) : list ExperimentPackageSet.t :=
  flat_map (fun e => match e with Send p => [p] | _ => [] end) evs.

Definition adds (evs : list event) : nat :=
  List.length (filter (fun e => match e with AddCompleted => true | _ => false end) evs).

(** The time a trace sleeps between the call of [fetchBatch] of turn
    [attempt] and the call before it (or its start); [None] when the trace
    has no call for that turn.  [slept] is the time slept since the last
    call. *)
Fixpoint wait_since (slept : Z) (attempt : nat) (evs : list event) : option Z :=
  match evs with
  | [] => None
  | Sleep d :: rest => wait_since (slept + d) attempt rest
  | FetchBatch a :: rest =>
      if (a =? attempt)%nat then Some slept else wait_since 0 attempt rest
  | _ :: rest => wait_since slept attempt rest
  end.

Definition wait_before (attempt : nat) (evs : list event) : option Z :=
  wait_since 0 attempt evs.

(* ================================================================== *)
(** * The pipeline of [main]: goroutines as an interleaving of steps *)

(** A worker goroutine: inside its body with the events left to perform
    (none left: the body returned and the deferred [<-sem] comes next);
    slot released, deferred [wg.Done()] pending; gone. *)
Inductive wstatus : Type :=
| Running (todo : list event)
| Signalling
| Exited.

(** The main goroutine: at the head of the [for _, batch := range batches]
    loop with the batches left and the index of the next; inside a turn of
    that loop, past [wg.Add(1)] and at the send [sem <- struct{}{}], with
    the batch of the turn; in [wg.Wait()]; past [pb.Finish()]; returned,
    with the file written ([None]: [os.Create] failed and [log.Fatalf]
    ended the program). *)
Inductive mstatus : Type :=
| Dispatching (rest : list (list string)) (next : nat)
| Acquiring (batch : list string) (rest : list (list string)) (next : nat)
| Waiting
| Draining
| Finished (tsv : option File).

(** Calls made on the progress bar. *)
Inductive pb_call : Type :=
| PbStart (total : Z)
| PbSetProgress (v : Z)
| PbFinish.

Record state : Type := mkState {
  st_main : mstatus;
  st_total : Z;                 (* total := int32(len(batches)) *)
  st_cap : nat;                 (* capacity of the channel results *)
  st_sem : nat;                 (* len(sem) *)
  st_wg : nat;                  (* counter of the WaitGroup *)
  st_workers : list wstatus;    (* the goroutines launched, in launch order *)
  st_completed : Z;             (* var completed int32 *)
  st_results : list ExperimentPackageSet.t;   (* buffer of results *)
  st_last : Z;                  (* last, of the monitor goroutine *)
  st_monitor : bool;            (* the monitor is still in its loop *)
  st_bar : list pb_call;        (* calls received by the bar, oldest first *)
  st_stderr : list event        (* log lines of the workers, oldest first *)
}.

Definition init_state (batches : list (list string)) : state :=
  let total := int32 (Z.of_nat (List.length batches)) in
  mkState (Dispatching batches 0) total (List.length batches) 0 0 [] 0 []
          0 true [PbStart total] [].

(** [main] up to the launch of the goroutines. *)
Definition main_init (ids : list string) : outcome state :=
  match chunkIDs ids batchSize with
  | Returned batches => Returned (init_state batches)
  | Panicked => Panicked
  | OutOfFuel => OutOfFuel
  end.

Fixpoint set_nth {A : Type} (i : nat) (x : A) (l : list A) : list A :=
  match l, i with
  | [], _ => []
  | _ :: t, O => x :: t
  | h :: t, S i' => h :: set_nth i' x t
  end.

Definition with_main (st : state) (m : mstatus) : state :=
  mkState m (st_total st) (st_cap st) (st_sem st) (st_wg st) (st_workers st)
          (st_completed st) (st_results st) (st_last st) (st_monitor st)
          (st_bar st) (st_stderr st).

Definition with_worker (st : state) (i : nat) (w : wstatus) : state :=
  mkState (st_main st) (st_total st) (st_cap st) (st_sem st) (st_wg st)
          (set_nth i w (st_workers st))
          (st_completed st) (st_results st) (st_last st) (st_monitor st)
          (st_bar st) (st_stderr st).

(** What the scheduler picks: the main goroutine, the worker launched
    [i]-th, or the monitor goroutine. *)
Inductive action : Type :=
| MainStep
| WorkerStep (i : nat)
| MonitorStep.

Definition is_finished (m : mstatus) : bool :=
  match m with Finished _ => true | _ => false end.

(** The environment of a run: what the call of [fetchBatch] made in turn
    [attempt] for the [i]-th batch returns, and whether [os.Create]
    succeeds.  Every call returns: a call that hangs is outside the
    model. *)
Record environment : Type := mkEnv {
  fetchBatch : nat -> nat -> fetched;
  create_ok : bool
}.

(** One step of the main goroutine; [None] when it is blocked. *)
Definition main_step (env : environment) (st : state) : option state :=
  match st_main st with
  | Dispatching (batch :: rest) next =>
      (* wg.Add(1): never blocks *)
      Some (mkState (Acquiring batch rest next) (st_total st) (st_cap st)
              (st_sem st) (S (st_wg st)) (st_workers st)
              (st_completed st) (st_results st) (st_last st) (st_monitor st)
              (st_bar st) (st_stderr st))
  | Acquiring batch rest next =>
      (* sem <- struct{}{}: blocks while the channel is full;
         go func(idList []string) {...}(batch): follows the send, cannot
         block and makes the goroutine that owns the slot just taken *)
      if (st_sem st <? maxWorkers)%nat then
        Some (mkState (Dispatching rest (S next)) (st_total st) (st_cap st)
                (S (st_sem st)) (st_wg st)
                (st_workers st ++ [Running (worker (fetchBatch env next))])
                (st_completed st) (st_results st) (st_last st) (st_monitor st)
                (st_bar st) (st_stderr st))
      else None
  | Dispatching [] _ => Some (with_main st Waiting)
  | Waiting =>
      (* wg.Wait(); pb.Finish() *)
      if (st_wg st =? 0)%nat then
        Some (mkState Draining (st_total st) (st_cap st) (st_sem st) (st_wg st)
                (st_workers st) (st_completed st) (st_results st) (st_last st)
                (st_monitor st) (st_bar st ++ [PbFinish]) (st_stderr st))
      else None
  | Draining =>
      (* close(results); os.Create; header; the loop over results *)
      if create_ok env then
        Some (with_main st
                (Finished (Some (write_results (st_results st)
                                   (WriteString [] header)))))
      else Some (with_main st (Finished None))
  | Finished _ => None
  end.

(** One step of the worker launched [i]-th; [None] when there is no such
    goroutine, it is gone, or it is blocked on a full channel. *)
Definition worker_step (i : nat) (st : state) : option state :=
  match nth_error (st_workers st) i with
  | Some (Running (ev :: todo)) =>
      let st' := with_worker st i (Running todo) in
      match ev with
      | Sleep _ | FetchBatch _ => Some st'
      | LogRetrying _ | LogFailed _ =>
          Some (mkState (st_main st') (st_total st') (st_cap st') (st_sem st')
                  (st_wg st') (st_workers st') (st_completed st')
                  (st_results st') (st_last st') (st_monitor st') (st_bar st')
                  (st_stderr st' ++ [ev]))
      | Send pkgSet =>
          if (List.length (st_results st) <? st_cap st)%nat then
            Some (mkState (st_main st') (st_total st') (st_cap st') (st_sem st')
                    (st_wg st') (st_workers st') (st_completed st')
                    (st_results st' ++ [pkgSet]) (st_last st') (st_monitor st')
                    (st_bar st') (st_stderr st'))
          else None
      | AddCompleted =>
          Some (mkState (st_main st') (st_total st') (st_cap st') (st_sem st')
                  (st_wg st') (st_workers st') (int32 (st_completed st' + 1))
                  (st_results st') (st_last st') (st_monitor st') (st_bar st')
                  (st_stderr st'))
      end
  | Some (Running []) =>
      (* defer func() { <-sem }() *)
      Some (mkState (st_main st) (st_total st) (st_cap st) (pred (st_sem st))
              (st_wg st) (set_nth i Signalling (st_workers st))
              (st_completed st) (st_results st) (st_last st) (st_monitor st)
              (st_bar st) (st_stderr st))
  | Some Signalling =>
      (* defer wg.Done() *)
      Some (mkState (st_main st) (st_total st) (st_cap st) (st_sem st)
              (pred (st_wg st)) (set_nth i Exited (st_workers st))
              (st_completed st) (st_results st) (st_last st) (st_monitor st)
              (st_bar st) (st_stderr st))
  | Some Exited | None => None
  end.

(** One turn of the loop of the monitor goroutine:
<<
    done := atomic.LoadInt32(&completed)
    if done > last { pb.SetProgress(int(done)); last = done }
    if done >= total { break }
    time.Sleep(50 * time.Millisecond)
>> *)
Definition monitor_step (st : state) : option state :=
  if st_monitor st then
    let done := st_completed st in
    let deliver := st_last st <? done in
    Some (mkState (st_main st) (st_total st) (st_cap st) (st_sem st) (st_wg st)
            (st_workers st) (st_completed st) (st_results st)
            (if deliver then done else st_last st)
            (negb (st_total st <=? done))
            (if deliver then st_bar st ++ [PbSetProgress done] else st_bar st)
            (st_stderr st))
  else None.

(** A step of the program.  Nothing runs once [main] has returned. *)
Definition step (env : environment) (a : action) (st : state) : option state :=
  if is_finished (st_main st) then None
  else
    match a with
    | MainStep => main_step env st
    | WorkerStep i => worker_step i st
    | MonitorStep => monitor_step st
    end.

(** Running a schedule; [None] when it picks a step that cannot be taken. *)
Fixpoint run (env : environment) (sched : list action) (st : state)
  : option state :=
  match sched with
  | [] => Some st
  | a :: sched' =>
      match step env a st with
      | Some st' => run env sched' st'
      | None => None
      end
  end.

(** The states a run of the program on [batches] passes through. *)
Definition reachable (env : environment) (batches : list (list string))
  (st : state) : Prop :=
  exists sched, run env sched (init_state batches) = Some st.

(** Workers that hold a slot of [sem]: launched and not yet past the
    deferred [<-sem].  Only these can be inside [fetchBatch]. *)
Definition holds_slot (w : wstatus) : bool :=
  match w with Running _ => true | _ => false end.

Definition in_flight (st : state) : nat :=
  List.length (filter holds_slot (st_workers st)).

(** Workers inside a call of [fetchBatch]: the call is their next event. *)
Definition fetching (w : wstatus) : bool :=
  match w with Running (FetchBatch _ :: _) => true | _ => false end.

Definition in_fetch (st : state) : nat :=
  List.length (filter fetching (st_workers st)).

(** The values the bar received through [pb.SetProgress]. *)
Definition delivered (bar : list pb_call) : list Z :=
  flat_map (fun c => match c with PbSetProgress v => [v] | _ => [] end) bar.

(* ------------------------------------------------------------------ *)
(** ** The first non-empty string of a list of candidates *)

Fixpoint first_nonempty (candidates : list string) : string :=
  match candidates with
  | [] => EmptyString
  | c :: rest => if (c =? "")%string then first_nonempty rest else c
  end.

(* ------------------------------------------------------------------ *)
(** ** Inputs used in the examples *)

Definition empty_library : LibraryDescriptor.t :=
  LibraryDescriptor.mk "" "" "".

(** An EXPERIMENT element as decoded, whose STUDY_REF carries one external
    identifier of namespace BioProject with the given text. *)
Definition decoded_experiment (bioproject : string) : Experiment.t :=
  Experiment.mk "" "" empty_library
    (studyRef.mk [externalID.mk "BioProject" bioproject]) "".

Definition experiment_of (aux : Experiment.t) : Experiment.t :=
  match UnmarshalXML (inl aux) with
  | inl e => e
  | inr _ => aux
  end.

(** The package of the end-to-end example of the specification: one run
    SRR000001, BioProject PRJNA000 on the experiment, BioSample SAMN000 on
    the sample, organization ACME Lab, collection_date 2024-01-01, and
    nothing else. *)
Definition example_package : ExperimentPackage.t :=
  ExperimentPackage.mk
    (experiment_of (decoded_experiment "PRJNA000"))
    (Sample.mk "" [Identifier.mk "BioSample" "SAMN000"]
       [SampleAttribute.mk "collection_date" "2024-01-01"] "")
    (RunSet.mk [Run.mk "SRR000001" "" "" "" ""])
    (Platform.mk (Platform.mkIllumina ""))
    (Organization.mk "ACME Lab" "")
    "" "".

(** A package whose experiment-level BioProject text starts with a space
    and whose sample has a bioproject attribute. *)
Definition padded_package : ExperimentPackage.t :=
  ExperimentPackage.mk
    (experiment_of (decoded_experiment " PRJNA000"))
    (Sample.mk "" [] [SampleAttribute.mk "bioproject" "PRJNA999"] "")
    (RunSet.mk [Run.mk "SRR000002" "" "" "" ""])
    (Platform.mk (Platform.mkIllumina ""))
    (Organization.mk "" "")
    "" "".

(** The same with an experiment-level text of white space only. *)
Definition blank_package : ExperimentPackage.t :=
  ExperimentPackage.mk
    (experiment_of (decoded_experiment "   "))
    (Sample.mk "" [] [SampleAttribute.mk "bioproject" "PRJNA999"] "")
    (RunSet.mk [Run.mk "SRR000003" "" "" "" ""])
    (Platform.mk (Platform.mkIllumina ""))
    (Organization.mk "" "")
    "" "".

(** A package with two runs, the second with nothing but its accession. *)
Definition two_run_package : ExperimentPackage.t :=
  ExperimentPackage.mk
    (Experiment.mk "" "" empty_library (studyRef.mk []) "PRJNA7")
    (Sample.mk "" [Identifier.mk "BioSample" "SAMN7"]
       [SampleAttribute.mk "geo_loc_name" "USA"] "")
    (RunSet.mk [Run.mk "SRR1" "100" "" "2024-02-02" "2024-02-01";
                Run.mk "SRR2" "" "" "" ""])
    (Platform.mk (Platform.mkIllumina ""))
    (Organization.mk "" "")
    "2024-03-01" "2024-03-02".

(** A network on which the first batch gives [two_run_package] at the
    first call and every call for another batch fails. *)
Definition second_failing_env : environment :=
  mkEnv (fun i _ =>
           match i with
           | O => inl (ExperimentPackageSet.mk [two_run_package])
           | S _ => inr "connection reset"%string
           end) true.

(** A network on which every call of [fetchBatch] fails. *)
Definition failing_env : environment :=
  mkEnv (fun _ _ => inr "connection reset"%string) true.

(** A network on which the first batch is fetched at once (an empty set)
    and every call for another batch fails. *)
Definition first_only_env : environment :=
  mkEnv (fun i _ =>
           match i with
           | O => inl (ExperimentPackageSet.mk [])
           | S _ => inr "connection reset"%string
           end) true.

(** A network on which every batch is fetched at once (an empty set). *)
Definition prompt_env : environment :=
  mkEnv (fun _ _ => inl (ExperimentPackageSet.mk [])) true.

(** A run on two batches, both fetched at once, in which the monitor polls
    once, after the first worker, and [main] returns before its next poll:
    both launches (two steps each: [wg.Add(1)], then the send with the
    [go] statement), the 5 steps of either worker, then [main] to its
    end. *)
Definition schedule_lagging : list action :=
  repeat MainStep 4 ++ repeat (WorkerStep 0) 5 ++ [MonitorStep]
  ++ repeat (WorkerStep 1) 5 ++ [MainStep; MainStep; MainStep].

(** A run on one batch whose worker fails: the two steps of the launch,
    the 17 steps of the worker, end of the loop, [wg.Wait] and [pb.Finish],
    the file; the monitor polls before, between and after. *)
Definition schedule_one_failing : list action :=
  [MonitorStep; MainStep; MainStep] ++ repeat (WorkerStep 0) 17
  ++ [MonitorStep; MainStep; MainStep; MonitorStep; MainStep].

(** A run on two batches, the first fetched at once, the second failing:
    both launches, the 5 steps of the first worker, the 17 of the second,
    then [main] to its end; the monitor polls in between. *)
Definition schedule_one_of_two : list action :=
  repeat MainStep 4 ++ [MonitorStep] ++ repeat (WorkerStep 0) 5
  ++ [MonitorStep] ++ repeat (WorkerStep 1) 17
  ++ [MonitorStep; MainStep; MainStep; MonitorStep; MonitorStep; MainStep].

(* ------------------------------------------------------------------ *)
(** ** Observations on the states of a run *)

Definition alive (w : wstatus) : bool :=
  match w with Exited => false | _ => true end.

(** The sets a worker has still to send. *)
Definition pending_sends (w : wstatus) : list ExperimentPackageSet.t :=
  match w with Running todo => sends todo | _ => [] end.

(** The sets the workers of the first [n] batches send in all: for every
    batch, the set decoded by its first successful call of [fetchBatch]
    within the budget, if there is one. *)
Definition all_sends (env : environment) (n : nat)
  : list ExperimentPackageSet.t :=
  flat_map (fun i => sends (worker (fetchBatch env i))) (seq 0 n).
Arguments all_sends : simpl never.

(** Steps a worker has still to take. *)
Definition worker_work (w : wstatus) : nat :=
  match w with
  | Running todo => List.length todo + 2
  | Signalling => 1
  | Exited => 0
  end.

(** Steps the launch of batch [i] adds: [wg.Add(1)], the send with the
    launch, and those of its worker. *)
Definition launch_work (env : environment) (i : nat) : nat :=
  S (S (List.length (worker (fetchBatch env i)) + 2)).

Definition main_work (env : environment) (m : mstatus) : nat :=
  match m with
  | Dispatching rest next =>
      list_sum (map (launch_work env) (seq next (List.length rest))) + 3
  | Acquiring _ rest next =>
      pred (launch_work env next) +
      list_sum (map (launch_work env) (seq (S next) (List.length rest))) + 3
  | Waiting => 2
  | Draining => 1
  | Finished _ => 0
  end.

(** Steps of the main goroutine and of the workers left before [main]
    returns. *)
Definition work_left (env : environment) (st : state) : nat :=
  main_work env (st_main st) + list_sum (map worker_work (st_workers st)).

Definition is_monitor (a : action) : bool :=
  match a with MonitorStep => true | _ => false end.

(** Steps of a schedule taken by the main goroutine or a worker. *)
Definition productive (sched : list action) : nat :=
  List.length (filter (fun a => negb (is_monitor a)) sched).

(** The file [main] leaves for the sets drained from the channel. *)
Definition output_of (env : environment)
  (results : list ExperimentPackageSet.t) : option File :=
  if create_ok env
  then Some (write_results results (WriteString [] header))
  else None.

(** The lines [writePackage] writes for the sets of [results], in order. *)
Definition lines_of (results : list ExperimentPackageSet.t) : list string :=
  flat_map
    (fun pkgSet =>
       flat_map (fun pkg => writePackage pkg [])
         (ExperimentPackageSet.Packages pkgSet))
    results.

(** Goroutines counted by [wg.Add(1)] and not launched yet: one while
    [main] is between [wg.Add(1)] and the [go] statement of a turn. *)
Definition announced (m : mstatus) : nat :=
  match m with Acquiring _ _ _ => 1 | _ => 0 end.

(** What holds in every state of a run on [batches]. *)
Record invariant (env : environment) (batches : list (list string))
  (st : state) : Prop := mkInv {
  inv_cap : st_cap st = List.length batches;
  inv_sem : st_sem st = in_flight st;
  inv_bound : (st_sem st <= maxWorkers)%nat;
  inv_wg :
    st_wg st = (List.length (filter alive (st_workers st)) +
                announced (st_main st))%nat;
  inv_main :
    match st_main st with
    | Dispatching rest next =>
        next = List.length (st_workers st) /\
        (next + List.length rest = st_cap st)%nat
    | Acquiring _ rest next =>
        next = List.length (st_workers st) /\
        (next + S (List.length rest) = st_cap st)%nat
    | Waiting => List.length (st_workers st) = st_cap st
    | Draining => List.length (st_workers st) = st_cap st /\ st_wg st = 0%nat
    | Finished tsv =>
        List.length (st_workers st) = st_cap st /\ st_wg st = 0%nat /\
        tsv = output_of env (st_results st)
    end;
  inv_results :
    Permutation (st_results st ++ flat_map pending_sends (st_workers st))
      (all_sends env (List.length (st_workers st)))
}.

(** The increments of [completed] a worker has still to make, and those
    the workers of the first [n] batches make in all. *)
Definition pending_adds (w : wstatus) : nat :=
  match w with Running todo => adds todo | _ => 0 end.

Definition all_adds (env : environment) (n : nat) : nat :=
  list_sum (map (fun i => adds (worker (fetchBatch env i))) (seq 0 n)).
Arguments all_adds : simpl never.

(** What holds of the counter, the monitor and the bar in every state of a
    run with fewer than 2^31 batches. *)
Record counter_invariant (env : environment) (st : state) : Prop := mkCnt {
  cnt_total : st_total st = Z.of_nat (st_cap st);
  cnt_sum :
    st_completed st + Z.of_nat (list_sum (map pending_adds (st_workers st)))
    = Z.of_nat (all_adds env (List.length (st_workers st)));
  cnt_nonneg : 0 <= st_completed st;
  cnt_last : 0 <= st_last st <= st_completed st;
  cnt_bar : Forall (fun v => 0 < v <= st_last st) (delivered (st_bar st));
  cnt_sorted : StronglySorted Z.lt (delivered (st_bar st));
  cnt_latest : last (delivered (st_bar st)) 0 = st_last st;
  cnt_stopped : st_monitor st = false -> st_total st <= st_last st
}.

(* ------------------------------------------------------------------ *)
(** ** Further observations *)

(** Every byte of [s] is one of the six ASCII space bytes. *)
Fixpoint all_space (s : string) : bool :=
  match s with
  | EmptyString => true
  | String c s' => asciiSpace (N_of_ascii c) && all_space s'
  end.

(** The first byte of [s] is an ASCII space byte. *)
Definition head_is_space (s : string) : bool :=
  match s with
  | EmptyString => false
  | String c _ => asciiSpace (N_of_ascii c)
  end.

(** The time a trace sleeps in all, and its log lines of either kind. *)
Fixpoint total_sleep (evs : list event) : Z :=
  match evs with
  | [] => 0
  | Sleep d :: rest => d + total_sleep rest
  | _ :: rest => total_sleep rest
  end.

Definition retry_logs (evs : list event) : nat :=
  List.length (filter (fun e => match e with LogRetrying _ => true | _ => false end) evs).

Definition failure_logs (evs : list event) : nat :=
  List.length (filter (fun e => match e with LogFailed _ => true | _ => false end) evs).

(** The call of turn [a] returns without an error. *)
Definition succeeds (fetch : nat -> fetched) (a : nat) : bool :=
  match fetch a with inl _ => true | inr _ => false end.

(** One of the [maxRetries] calls for batch [i] returns without an error. *)
Definition fetched_within_budget (env : environment) (i : nat) : bool :=
  existsb (succeeds (fetchBatch env i)) (seq 0 maxRetries).


(** Reading a line back: the columns between the tabs, up to the first
    newline. *)
Fixpoint split_line (s : string) : list string :=
  match s with
  | EmptyString => [EmptyString]
  | String c s' =>
      if (N_of_ascii c =? 10)%N then [EmptyString]
      else if (N_of_ascii c =? 9)%N then EmptyString :: split_line s'
      else
        match split_line s' with
        | col :: cols => String c col :: cols
        | [] => [String c EmptyString]
        end
  end.

(** No byte of [s] is a tab or a newline. *)
Fixpoint plain (s : string) : bool :=
  match s with
  | EmptyString => true
  | String c s' =>
      negb (N_of_ascii c =? 9)%N && negb (N_of_ascii c =? 10)%N && plain s'
  end.

(** The part of a state the monitor goroutine never writes. *)
Definition core (st : state) :=
  (st_main st, st_total st, st_cap st, st_sem st, st_wg st, st_workers st,
   st_completed st, st_results st, st_stderr st).

(** A schedule without the turns of the monitor. *)
Definition without_monitor (sched : list action) : list action :=
  filter (fun a => negb (is_monitor a)) sched.

(* ------------------------------------------------------------------ *)
(** ** Further inputs used in the examples *)

(** A package without an organization whose sample names its submitter
    under the tag Submitted_By. *)
Definition fallback_package : ExperimentPackage.t :=
  ExperimentPackage.mk
    (Experiment.mk "" "" empty_library (studyRef.mk []) "")
    (Sample.mk ""
       []
       [SampleAttribute.mk "Submitted_By" "Lab X";
        SampleAttribute.mk "center_name" "Center Y"] "")
    (RunSet.mk [Run.mk "SRR000004" "" "" "" ""])
    (Platform.mk (Platform.mkIllumina ""))
    (Organization.mk "" "")
    "" "".

(** An EXPERIMENT element as decoded whose STUDY_REF carries no identifier
    of namespace BioProject. *)
Definition decoded_without_bioproject : Experiment.t :=
  Experiment.mk "SRX1" "a title" empty_library
    (studyRef.mk [externalID.mk "SRA" "SRP1"]) "".

(** A batch whose first two calls fail and whose third call succeeds. *)
Definition third_call_succeeds (attempt : nat) : fetched :=
  if (attempt <? 2)%nat then inr "connection reset"%string
  else inl (ExperimentPackageSet.mk []).

(** A network on which the first batch gives [example_package], every other
    batch [padded_package], at the first call. *)
Definition two_sets_env : environment :=
  mkEnv (fun i _ =>
           match i with
           | O => inl (ExperimentPackageSet.mk [example_package])
           | S _ => inl (ExperimentPackageSet.mk [padded_package])
           end) true.

(** Two runs on two batches fetched at once: the first worker does all its
    steps before the second, or the second before the first. *)
Definition schedule_first_then_second : list action :=
  repeat MainStep 4 ++ repeat (WorkerStep 0) 5 ++ repeat (WorkerStep 1) 5
  ++ [MainStep; MainStep; MainStep].

Definition schedule_second_then_first : list action :=
  repeat MainStep 4 ++ repeat (WorkerStep 1) 5 ++ repeat (WorkerStep 0) 5
  ++ [MainStep; MainStep; MainStep].

(* ------------------------------------------------------------------ *)
(** ** fetchBatch: the request *)





(* ================================================================== *)
(** * Theorems *)

(** ** chunkIDs *)

Lemma ceil_div_small (n s : Z) : 0 < n <= s -> ceil_div n s = 1.
Proof.
  intros H. unfold ceil_div.
  symmetry. apply (Z.div_unique_pos (n + s - 1) s 1 (n - 1)); lia.
Qed.

Lemma ceil_div_zero (s : Z) : 0 < s -> ceil_div 0 s = 0.
Proof.
  intros H. unfold ceil_div. apply Z.div_small. lia.
Qed.

Lemma ceil_div_step (n s : Z) : 0 < s -> ceil_div (n + s) s = ceil_div n s + 1.
Proof.
  intros H. unfold ceil_div.
  replace (n + s + s - 1) with ((n + s - 1) + 1 * s) by lia.
  apply Z.div_add. lia.
Qed.

Lemma ceil_div_pos (n s : Z) : 0 < s -> 0 < n -> 1 <= ceil_div n s.
Proof.
  intros Hs Hn. unfold ceil_div.
  apply Z.div_le_lower_bound; lia.
Qed.

(** What the loop returns when the chunk size is positive and the fuel is
    at least the number of identifiers left. *)
Lemma chunkIDs_loop_spec (fuel : nat) :
  forall (ids : list string) (chunks : list (list string)) (size : Z),
    0 < size ->
    (List.length ids <= fuel)%nat ->
    exists tail,
      chunkIDs_loop fuel ids chunks size = Returned (chunks ++ tail) /\
      concat tail = ids /\
      Z.of_nat (List.length tail) =
        Z.max 1 (ceil_div (Z.of_nat (List.length ids)) size) /\
      Forall (fun b => Z.of_nat (List.length b) = size) (all_but_last tail) /\
      Z.of_nat (List.length (last tail [])) <= size /\
      (ids <> [] -> last tail [] <> []).
Proof.
  induction fuel as [|fuel IH]; intros ids chunks size Hs Hfuel.
  - assert (ids = []) by (destruct ids; [reflexivity | simpl in Hfuel; lia]).
    subst ids. exists [[]]. cbn [chunkIDs_loop List.length].
    replace (size <? Z.of_nat 0) with false by (symmetry; apply Z.ltb_ge; lia).
    rewrite ceil_div_zero by lia.
    repeat split; try reflexivity; cbn; try constructor; try lia.
    intros H; now elim H.
  - cbn [chunkIDs_loop].
    destruct (size <? Z.of_nat (List.length ids)) eqn:Hlt.
    + apply Z.ltb_lt in Hlt.
      replace (size <? 0) with false by (symmetry; apply Z.ltb_ge; lia).
      set (s := Z.to_nat size).
      assert (Hs' : (0 < s <= List.length ids)%nat) by (unfold s; lia).
      assert (Hskip : List.length (skipn s ids) = (List.length ids - s)%nat)
        by apply length_skipn.
      destruct (IH (skipn s ids) (chunks ++ [firstn s ids]) size Hs)
        as (tail & Erun & Ecat & Elen & Hall & Hlast & Hne).
      { lia. }
      assert (Htail : tail <> []).
      { intros ->. cbn in Elen. lia. }
      exists (firstn s ids :: tail).
      split; [| split; [| split; [| split; [| split]]]].
      * rewrite Erun. now rewrite <- app_assoc.
      * cbn [concat]. rewrite Ecat. apply firstn_skipn.
      * cbn [List.length]. rewrite Nat2Z.inj_succ, Elen, Hskip.
        replace (Z.of_nat (List.length ids))
          with (Z.of_nat (List.length ids - s) + size) by (unfold s; lia).
        rewrite ceil_div_step by lia.
        assert (1 <= ceil_div (Z.of_nat (List.length ids - s) + size) size).
        { apply ceil_div_pos; lia. }
        rewrite ceil_div_step in H by lia.
        destruct (Z.eq_dec (Z.of_nat (List.length ids - s)) 0) as [E0|N0].
        -- rewrite E0. rewrite ceil_div_zero by lia. lia.
        -- assert (1 <= ceil_div (Z.of_nat (List.length ids - s)) size)
             by (apply ceil_div_pos; lia).
           lia.
      * unfold all_but_last in *. destruct tail as [|b tail']; [now elim Htail|].
        cbn [removelast]. constructor; [| exact Hall].
        rewrite length_firstn. unfold s. lia.
      * destruct tail as [|b tail']; [now elim Htail|]. exact Hlast.
      * intros _. destruct tail as [|b tail']; [now elim Htail|].
        apply Hne. intros E. rewrite E in Hskip. cbn in Hskip.
        unfold s in *. lia.
    + apply Z.ltb_ge in Hlt.
      exists [ids]. cbn [concat List.length last all_but_last removelast].
      rewrite app_nil_r.
      split; [reflexivity|]. split; [reflexivity|].
      split; [| split; [constructor | split; [lia | tauto]]].
      destruct ids as [|i ids'].
      * cbn [List.length]. rewrite ceil_div_zero by lia. reflexivity.
      * rewrite ceil_div_small; [reflexivity|]. cbn [List.length] in *. lia.
Qed.

(** C3, in the form that holds: for a positive chunk size, [chunkIDs] returns; the
    batches concatenate to the input, all but the last have exactly [size]
    identifiers, the last has at most [size] and is empty only for an empty
    input; their number is the ceiling of N/S for a non-empty input and one
    (a single empty batch) for the empty input. *)
Theorem chunkIDs_covers (ids : list string) (size : Z) :
  0 < size ->
  exists batches,
    chunkIDs ids size = Returned batches /\
    Z.of_nat (List.length batches) =
      Z.max 1 (ceil_div (Z.of_nat (List.length ids)) size) /\
    concat batches = ids /\
    Forall (fun b => Z.of_nat (List.length b) = size) (all_but_last batches) /\
    Z.of_nat (List.length (last batches [])) <= size /\
    (ids <> [] -> last batches [] <> []).
Proof.
  intros Hs.
  destruct (chunkIDs_loop_spec (List.length ids) ids [] size Hs (Nat.le_refl _))
    as (tail & E & Hcat & Hlen & H).
  exists tail. split; [exact E | split; [exact Hlen | split; [exact Hcat | exact H]]].
Qed.

Lemma chunkIDs_covers_witness :
  0 < 2 /\
  exists batches,
    chunkIDs ["SRX1"; "SRX2"; "SRX3"]%string 2 = Returned batches /\
    Z.of_nat (List.length batches) = Z.max 1 (ceil_div 3 2) /\
    concat batches = ["SRX1"; "SRX2"; "SRX3"]%string /\
    Forall (fun b => Z.of_nat (List.length b) = 2) (all_but_last batches) /\
    Z.of_nat (List.length (last batches [])) <= 2 /\
    (["SRX1"; "SRX2"; "SRX3"]%string <> [] -> last batches [] <> []).
Proof.
  split; [lia | apply (chunkIDs_covers ["SRX1"; "SRX2"; "SRX3"]%string 2); lia].
Defined.

(** C3 as stated fails on the empty input: [chunkIDs] returns one (empty)
    batch there, not the ceiling of 0/S, which is zero. *)
Lemma chunkIDs_empty_input_one_batch :
  ~ (exists batches,
       chunkIDs [] 1 = Returned batches /\
       Z.of_nat (List.length batches) = ceil_div (Z.of_nat (@List.length string [])) 1 /\
       concat batches = [] /\
       Forall (fun b => Z.of_nat (List.length b) = 1) (all_but_last batches)).
Proof.
  intros (batches & E & Hlen & _).
  cbv in E. injection E as <-. cbv in Hlen. discriminate.
Qed.

(** ** The worker *)

Lemma last_app_ne {A : Type} (l1 l2 : list A) (d : A) :
  l2 <> [] -> last (l1 ++ l2) d = last l2 d.
Proof.
  intros H. induction l1 as [|x l1 IH]; [reflexivity|].
  cbn [app last]. rewrite IH.
  destruct (l1 ++ l2) eqn:E; [| reflexivity].
  apply app_eq_nil in E. now destruct E.
Qed.

Lemma wait_since_loop (fetch : nat -> fetched) (target : nat) :
  forall (remaining attempt : nat) (err : option string) (slept : Z),
    (0 < target)%nat ->
    (attempt <= target < attempt + remaining)%nat ->
    (forall a, (attempt <= a < target)%nat -> exists e, fetch a = inr e) ->
    wait_since slept target (worker_loop remaining attempt err fetch) =
      Some (if (attempt =? target)%nat
            then slept + sleepDuration attempt
            else sleepDuration target).
Proof.
  induction remaining as [|remaining IH]; intros attempt err slept Ht Hr Hfail.
  - lia.
  - cbn [worker_loop].
    destruct attempt as [|attempt'].
    + (* the first turn: no sleep, and it is not the target *)
      cbn [Nat.ltb Nat.leb app wait_since].
      replace (0 =? target)%nat with false by (symmetry; apply Nat.eqb_neq; lia).
      destruct (Hfail 0%nat) as [e E]; [lia|]. rewrite E.
      rewrite IH; [| lia | lia | intros a Ha; apply Hfail; lia].
      destruct (Nat.eqb_spec 1 target); [subst; f_equal; lia | reflexivity].
    + replace (0 <? S attempt')%nat with true by reflexivity.
      assert (Hskip : forall tl,
                 wait_since slept target
                   ((Sleep (sleepDuration (S attempt'))
                     :: (if (5 <? S attempt')%nat
                         then [LogRetrying (sleepDuration (S attempt'))]
                         else [])) ++ FetchBatch (S attempt') :: tl) =
                 if (S attempt' =? target)%nat
                 then Some (slept + sleepDuration (S attempt'))
                 else wait_since 0 target tl).
      { intros tl. destruct (5 <? S attempt')%nat; reflexivity. }
      rewrite Hskip.
      destruct (Nat.eqb_spec (S attempt') target) as [Heq|Hne]; [reflexivity|].
      destruct (Hfail (S attempt')) as [e E]; [lia|]. rewrite E.
      rewrite IH; [| lia | lia | intros a Ha; apply Hfail; lia].
      destruct (Nat.eqb_spec (S (S attempt')) target);
        [subst; f_equal; lia | reflexivity].
Qed.

Lemma sleepDuration_double (attempt : nat) :
  sleepDuration (S attempt) = 2 * sleepDuration attempt.
Proof.
  unfold sleepDuration. rewrite Nat2Z.inj_succ, Z.pow_succ_r by lia. lia.
Qed.

(** C6, in the form that holds: when the turns 0..i all fail and turn i+1
    is within the budget, the worker sleeps 2^(i+1) seconds between the
    calls of turns i and i+1 (two seconds after the first failure); and
    when turn i+1 fails too and turn i+2 is within the budget, the sleep
    before turn i+2 is twice as long. *)
Theorem backoff_wait (fetch : nat -> fetched) (i : nat) :
  (S i < maxRetries)%nat ->
  (forall a, (a <= i)%nat -> exists e, fetch a = inr e) ->
  wait_before (S i) (worker fetch) = Some (2 ^ (Z.of_nat i + 1) * Second) /\
  ((S (S i) < maxRetries)%nat ->
   (exists e, fetch (S i) = inr e) ->
   wait_before (S (S i)) (worker fetch)
     = Some (2 * (2 ^ (Z.of_nat i + 1) * Second))).
Proof.
  intros Hi Hfail.
  assert (E : sleepDuration (S i) = 2 ^ (Z.of_nat i + 1) * Second).
  { unfold sleepDuration. now rewrite Nat2Z.inj_succ. }
  split.
  - unfold wait_before, worker.
    rewrite wait_since_loop; [| lia | lia | intros a Ha; apply Hfail; lia].
    cbn [Nat.eqb]. now rewrite E.
  - intros Hi' Hnext. unfold wait_before, worker.
    rewrite wait_since_loop; [| lia | lia |].
    + cbn [Nat.eqb]. now rewrite sleepDuration_double, E.
    + intros a Ha. destruct (Nat.eq_dec a (S i)) as [->|Hne];
        [exact Hnext | apply Hfail; lia].
Qed.

(** What a worker does when every call of [fetchBatch] fails. *)
Lemma worker_loop_all_fail (fetch : nat -> fetched) (errs : nat -> string) :
  forall (remaining attempt : nat) (err : option string),
    (forall a, (attempt <= a < attempt + remaining)%nat ->
               fetch a = inr (errs a)) ->
    let evs := worker_loop remaining attempt err fetch in
    List.length (filter is_fetch evs) = remaining /\
    sends evs = [] /\
    adds evs = 0%nat /\
    last evs (LogFailed None) =
      LogFailed (match remaining with
                 | O => err
                 | S r => Some (errs (attempt + r)%nat)
                 end).
Proof.
  induction remaining as [|remaining IH]; intros attempt err Hfail.
  - cbn. repeat split; reflexivity.
  - cbn zeta. cbn [worker_loop].
    rewrite Hfail by lia.
    destruct (IH (S attempt) (Some (errs attempt))) as (Hf & Hs & Ha & Hl).
    { intros a Ha. apply Hfail. lia. }
    cbn zeta in Hf, Hs, Ha, Hl.
    set (tl := worker_loop remaining (S attempt) (Some (errs attempt)) fetch) in *.
    assert (Htl : tl <> []).
    { unfold tl. destruct remaining; cbn; [discriminate|].
      destruct (match attempt with O => _ | S _ => _ end); discriminate. }
    set (pre := if (0 <? attempt)%nat then _ else _).
    assert (Hpre : filter is_fetch pre = [] /\ sends pre = [] /\ adds pre = 0%nat).
    { unfold pre. destruct (0 <? attempt)%nat; [| now cbn].
      destruct (5 <? attempt)%nat; now cbn. }
    destruct Hpre as (P1 & P2 & P3).
    repeat split.
    + rewrite filter_app, P1. cbn. now rewrite Hf.
    + unfold sends in *. rewrite flat_map_app, P2. cbn. exact Hs.
    + unfold adds in *. rewrite filter_app, length_app, P3. cbn. exact Ha.
    + rewrite last_app_ne by discriminate.
      change (FetchBatch attempt :: tl) with ([FetchBatch attempt] ++ tl).
      rewrite last_app_ne by exact Htl.
      rewrite Hl. destruct remaining as [|r].
      * now rewrite Nat.add_0_r.
      * do 2 f_equal. f_equal. lia.
Qed.

(** ** The pipeline: what every run preserves *)

Lemma set_nth_split {A : Type} (l : list A) :
  forall (i : nat) (w : A),
    nth_error l i = Some w ->
    exists l1 l2,
      l = l1 ++ w :: l2 /\ List.length l1 = i /\
      forall w', set_nth i w' l = l1 ++ w' :: l2.
Proof.
  induction l as [|h t IH]; intros [|i] w H; try discriminate.
  - injection H as ->. exists [], t. repeat split.
  - destruct (IH i w H) as (l1 & l2 & -> & Hlen & Hset).
    exists (h :: l1), l2. cbn. repeat split.
    + now rewrite Hlen.
    + intros w'. now rewrite Hset.
Qed.

Lemma sends_worker_loop (fetch : nat -> fetched) :
  forall (remaining attempt : nat) (err : option string),
    (List.length (sends (worker_loop remaining attempt err fetch)) <= 1)%nat.
Proof.
  induction remaining as [|remaining IH]; intros attempt err; [cbn; lia|].
  cbn [worker_loop]. unfold sends in *. rewrite flat_map_app.
  set (pre := if (0 <? attempt)%nat then _ else _).
  assert (Hpre : flat_map (fun e => match e with Send p => [p] | _ => [] end) pre = []).
  { unfold pre. destruct (0 <? attempt)%nat; [| reflexivity].
    destruct (5 <? attempt)%nat; reflexivity. }
  rewrite Hpre. cbn [app flat_map].
  destruct (fetch attempt) as [pkgSet|e]; [cbn; lia | apply IH].
Qed.

Lemma all_sends_succ (env : environment) (n : nat) :
  all_sends env (S n) = all_sends env n ++ sends (worker (fetchBatch env n)).
Proof.
  unfold all_sends. rewrite seq_S, flat_map_app. cbn. now rewrite app_nil_r.
Qed.

Lemma all_sends_length (env : environment) (n : nat) :
  (List.length (all_sends env n) <= n)%nat.
Proof.
  induction n as [|n IH]; [unfold all_sends; cbn; lia|].
  rewrite all_sends_succ, length_app.
  pose proof (sends_worker_loop (fetchBatch env n) maxRetries 0 None) as H.
  fold (worker (fetchBatch env n)) in H. lia.
Qed.

Lemma invariant_init (env : environment) (batches : list (list string)) :
  invariant env batches (init_state batches).
Proof.
  constructor; cbn; try reflexivity; try lia; constructor.
Qed.

Ltac fields :=
  cbn [st_main st_total st_cap st_sem st_wg st_workers st_completed
       st_results st_last st_monitor st_bar st_stderr with_main with_worker]
    in *.

Lemma invariant_main_step (env : environment) (batches : list (list string))
  (st st' : state) :
  invariant env batches st -> main_step env st = Some st' ->
  invariant env batches st'.
Proof.
  intros [Hcap Hsem Hbound Hwg Hmain Hres] Hstep.
  destruct st as [m total cap sem wg ws comp res lst mon bar err].
  unfold main_step, with_main, in_flight in *. fields.
  destruct m as [[|batch rest] next|batch rest next| | |tsv]; fields.
  - injection Hstep as <-. constructor; cbn; try assumption. cbn in Hmain. lia.
  - injection Hstep as <-. cbn [List.length announced] in *.
    constructor; cbn; try assumption; lia.
  - destruct (sem <? maxWorkers)%nat eqn:Hlt; [| discriminate].
    apply Nat.ltb_lt in Hlt. injection Hstep as <-.
    destruct Hmain as [-> Hmain]. cbn [List.length announced] in *.
    constructor; unfold in_flight; cbn;
      rewrite ?filter_app, ?length_app; cbn; try lia; try (split; lia).
    rewrite flat_map_app, Nat.add_1_r, all_sends_succ. cbn.
    rewrite app_nil_r, app_assoc.
    now apply Permutation_app_tail.
  - destruct (wg =? 0)%nat eqn:Hz; [| discriminate].
    apply Nat.eqb_eq in Hz. injection Hstep as <-.
    constructor; cbn; try assumption. split; assumption.
  - destruct Hmain as [Hlen Hz].
    destruct (create_ok env) eqn:Hc; injection Hstep as <-;
      constructor; cbn; try assumption;
      (split; [assumption | split; [assumption |]]);
      unfold output_of; now rewrite Hc.
  - discriminate.
Qed.

Lemma invariant_monitor_step (env : environment) (batches : list (list string))
  (st st' : state) :
  invariant env batches st -> monitor_step st = Some st' ->
  invariant env batches st'.
Proof.
  intros [Hcap Hsem Hbound Hwg Hmain Hres] Hstep.
  destruct st as [m total cap sem wg ws comp res lst mon bar err].
  unfold monitor_step, in_flight in *. cbn in *.
  destruct mon; [| discriminate]. injection Hstep as <-.
  constructor; cbn; assumption.
Qed.

Lemma list_sum_cons (x : nat) (l : list nat) :
  list_sum (x :: l) = (x + list_sum l)%nat.
Proof. reflexivity. Qed.

Lemma list_sum_nil : list_sum [] = 0%nat.
Proof. reflexivity. Qed.

Ltac lists :=
  rewrite ?filter_app, ?flat_map_app, ?map_app, ?list_sum_app, ?length_app in *;
  cbn [filter holds_slot alive pending_sends flat_map map List.length app] in *;
  rewrite ?list_sum_cons, ?list_sum_nil in *;
  cbn [worker_work List.length] in *.

Lemma invariant_worker_step (env : environment) (batches : list (list string))
  (i : nat) (st st' : state) :
  invariant env batches st -> worker_step i st = Some st' ->
  invariant env batches st'.
Proof.
  intros [Hcap Hsem Hbound Hwg Hmain Hres] Hstep.
  destruct st as [m total cap sem wg ws comp res lst mon bar err].
  unfold worker_step, with_worker, in_flight in *. fields.
  destruct (nth_error ws i) as [w|] eqn:Hnth; [| discriminate].
  destruct (set_nth_split ws i w Hnth) as (l1 & l2 & -> & Hlen & Hset).
  destruct w as [[|ev todo]| |]; rewrite ?Hset in Hstep; lists.
  - (* the deferred receive from sem *)
    injection Hstep as <-.
    constructor; unfold in_flight; fields; lists; try assumption; try lia.
  - (* an event of the body *)
    assert (Hsame :
              forall res' comp' err',
                Permutation
                  (res' ++ flat_map pending_sends l1 ++ sends todo
                        ++ flat_map pending_sends l2)
                  (all_sends env (List.length l1 + S (List.length l2))) ->
                invariant env batches
                  (mkState m total cap sem wg (l1 ++ Running todo :: l2)
                     comp' res' lst mon bar err')).
    { intros res' comp' err' HP.
      constructor; unfold in_flight; fields; lists; try assumption; try lia.
      destruct m as [rest next|batch rest next| | |tsv]; cbn [announced] in *; intuition lia. }
    destruct ev as [d|d|a|pkgSet| |e]; fields; cbn [sends flat_map app] in Hres;
      try (injection Hstep as <-; now apply Hsame).
    destruct (List.length res <? cap)%nat; [| discriminate].
    injection Hstep as <-. apply Hsame.
    rewrite <- Hres, <- app_assoc.
    apply Permutation_app_head. cbn.
    apply Permutation_middle.
  - (* the deferred wg.Done() *)
    injection Hstep as <-.
    constructor; unfold in_flight; fields; lists; try assumption; try lia.
    destruct m as [rest next|batch rest next| | |tsv]; cbn [announced] in *; fields; try assumption; intuition lia.
  - discriminate.
Qed.

Lemma invariant_step (env : environment) (batches : list (list string))
  (a : action) (st st' : state) :
  invariant env batches st -> step env a st = Some st' ->
  invariant env batches st'.
Proof.
  intros Hinv Hstep. unfold step in Hstep.
  destruct (is_finished (st_main st)); [discriminate|].
  destruct a as [|i|].
  - eapply invariant_main_step; eassumption.
  - eapply invariant_worker_step; eassumption.
  - eapply invariant_monitor_step; eassumption.
Qed.

Lemma run_preserves (env : environment) (P : state -> Prop) :
  (forall a st st', P st -> step env a st = Some st' -> P st') ->
  forall sched st st', P st -> run env sched st = Some st' -> P st'.
Proof.
  intros Hstep. induction sched as [|a sched IH]; intros st st' HP Hrun.
  - cbn in Hrun. now injection Hrun as <-.
  - cbn in Hrun. destruct (step env a st) as [st1|] eqn:E; [| discriminate].
    eapply IH; [| exact Hrun]. eapply Hstep; eassumption.
Qed.

Lemma invariant_reachable (env : environment) (batches : list (list string))
  (st : state) :
  reachable env batches st -> invariant env batches st.
Proof.
  intros [sched Hrun].
  eapply run_preserves; [| apply invariant_init | exact Hrun].
  intros a s s'. apply invariant_step.
Qed.

Lemma fetching_holds_slot (ws : list wstatus) :
  (List.length (filter fetching ws) <= List.length (filter holds_slot ws))%nat.
Proof.
  induction ws as [|w ws IH]; [cbn; lia|].
  destruct w as [[|[d|d|a|p| |e] todo]| |]; cbn; lia.
Qed.

(** C9: in every state of a run, the workers inside a call of [fetchBatch]
    are among those holding a slot of [sem], and these are as many as the
    channel holds tokens: at most [maxWorkers], which is 10. *)
Theorem fetching_workers_bounded (env : environment)
  (batches : list (list string)) (st : state) :
  reachable env batches st ->
  (in_fetch st <= in_flight st)%nat /\
  in_flight st = st_sem st /\
  (in_flight st <= maxWorkers)%nat /\
  maxWorkers = 10%nat.
Proof.
  intros Hreach. apply invariant_reachable in Hreach.
  destruct Hreach as [_ Hsem Hbound _ _ _].
  repeat split.
  - apply fetching_holds_slot.
  - now rewrite Hsem.
  - now rewrite <- Hsem.
Qed.

(** ** The pipeline: every run ends *)

Lemma work_step (env : environment) (a : action) (st st' : state) :
  step env a st = Some st' ->
  work_left env st = ((if is_monitor a then 0 else 1) + work_left env st')%nat.
Proof.
  unfold step. destruct (is_finished (st_main st)); [discriminate|].
  destruct st as [m total cap sem wg ws comp res lst mon bar err].
  destruct a as [|i|]; cbn [is_monitor]; intros Hstep.
  - unfold main_step, with_main, work_left in *. fields.
    destruct m as [[|batch rest] next|batch rest next| | |tsv]; fields.
    + injection Hstep as <-. cbn -[list_sum]. rewrite list_sum_nil. lia.
    + injection Hstep as <-. fields.
      cbn [main_work List.length seq]. lists. unfold launch_work.
      cbn [Nat.pred]. lia.
    + destruct (sem <? maxWorkers)%nat; [| discriminate].
      injection Hstep as <-. fields.
      cbn [main_work List.length seq]. lists. unfold launch_work.
      cbn [Nat.pred]. lia.
    + destruct (wg =? 0)%nat; [| discriminate].
      injection Hstep as <-. cbn -[list_sum]. lia.
    + destruct (create_ok env); injection Hstep as <-; cbn -[list_sum]; lia.
    + discriminate.
  - unfold worker_step, with_worker, work_left in *. fields.
    destruct (nth_error ws i) as [w|] eqn:Hnth; [| discriminate].
    destruct (set_nth_split ws i w Hnth) as (l1 & l2 & -> & Hlen & Hset).
    destruct w as [[|ev todo]| |]; rewrite ?Hset in Hstep.
    + injection Hstep as <-. fields. lists. lia.
    + destruct ev as [d|d|at_|pkgSet| |e]; fields;
        try (injection Hstep as <-; fields; lists; lia).
      destruct (List.length res <? cap)%nat; [| discriminate].
      injection Hstep as <-. fields. lists. lia.
    + injection Hstep as <-. fields. lists. lia.
    + discriminate.
  - unfold monitor_step, work_left in *. fields.
    destruct mon; [| discriminate]. injection Hstep as <-. reflexivity.
Qed.

Lemma run_work (env : environment) :
  forall (sched : list action) (st st' : state),
    run env sched st = Some st' ->
    work_left env st = (productive sched + work_left env st')%nat.
Proof.
  induction sched as [|a sched IH]; intros st st' Hrun.
  - cbn in Hrun. now injection Hrun as <-.
  - cbn in Hrun. destruct (step env a st) as [st1|] eqn:E; [| discriminate].
    rewrite (work_step env a st st1 E), (IH st1 st' Hrun).
    unfold productive. cbn [filter].
    destruct (is_monitor a); cbn; lia.
Qed.

Lemma filter_pick {A : Type} (f : A -> bool) (l : list A) :
  (0 < List.length (filter f l))%nat ->
  exists i w, nth_error l i = Some w /\ f w = true.
Proof.
  induction l as [|x l IH]; cbn; [lia|].
  destruct (f x) eqn:E.
  - intros _. exists 0%nat, x. now split.
  - intros H. destruct (IH H) as (i & w & Hn & Hw).
    exists (S i), w. now split.
Qed.

Lemma no_alive_no_work (ws : list wstatus) :
  List.length (filter alive ws) = 0%nat ->
  flat_map pending_sends ws = [] /\ list_sum (map worker_work ws) = 0%nat.
Proof.
  induction ws as [|w ws IH]; [now split|].
  destruct w; cbn; try discriminate. exact IH.
Qed.

Lemma workers_within_cap (env : environment) (batches : list (list string))
  (st : state) :
  invariant env batches st -> (List.length (st_workers st) <= st_cap st)%nat.
Proof.
  intros [_ _ _ _ Hmain _].
  destruct (st_main st); intuition lia.
Qed.

(** A worker that is not gone can take a step: the channel [results] has
    room for one set per batch, so a send never blocks. *)
Lemma alive_can_step (env : environment) (batches : list (list string))
  (st : state) (i : nat) (w : wstatus) :
  invariant env batches st ->
  nth_error (st_workers st) i = Some w -> alive w = true ->
  exists st', worker_step i st = Some st'.
Proof.
  intros Hinv Hnth Halive.
  pose proof (workers_within_cap env batches st Hinv) as Hcap.
  destruct Hinv as [_ _ _ _ _ Hres].
  unfold worker_step. rewrite Hnth.
  destruct w as [[|ev todo]| |]; try discriminate; try (eexists; reflexivity).
  destruct ev as [d|d|a|pkgSet| |e]; try (eexists; reflexivity).
  destruct (set_nth_split _ i _ Hnth) as (l1 & l2 & Hws & _ & _).
  apply Permutation_length in Hres.
  pose proof (all_sends_length env (List.length (st_workers st))) as Hle.
  rewrite Hws in Hres. lists. cbn [sends flat_map app List.length] in Hres.
  rewrite ?length_app in Hres. cbn [List.length] in Hres.
  replace (List.length (st_results st) <? st_cap st)%nat with true.
  - eexists; reflexivity.
  - symmetry. apply Nat.ltb_lt. rewrite Hws in Hle, Hcap.
    rewrite length_app in Hle, Hcap. cbn [List.length] in Hle, Hcap. lia.
Qed.

(** In a state where [main] has not returned, the main goroutine or a
    worker can take a step: the program has no deadlock. *)
Lemma progress (env : environment) (batches : list (list string)) (st : state) :
  invariant env batches st ->
  is_finished (st_main st) = false ->
  exists a st', is_monitor a = false /\ step env a st = Some st'.
Proof.
  intros Hinv Hfin.
  assert (Hworker : forall i w,
             nth_error (st_workers st) i = Some w -> alive w = true ->
             exists a st', is_monitor a = false /\ step env a st = Some st').
  { intros i w Hn Ha.
    destruct (alive_can_step env batches st i w Hinv Hn Ha) as [st' E].
    exists (WorkerStep i), st'. unfold step. rewrite Hfin. now split. }
  assert (Hmain : forall st', main_step env st = Some st' ->
             exists a st', is_monitor a = false /\ step env a st = Some st').
  { intros st' E. exists MainStep, st'. unfold step. rewrite Hfin. now split. }
  destruct Hinv as [_ Hsem Hbound Hwg _ _].
  unfold main_step in Hmain.
  destruct (st_main st) as [[|batch rest] next|batch rest next| | |tsv] eqn:Em.
  - eapply Hmain; reflexivity.
  - eapply Hmain; reflexivity.
  - destruct (st_sem st <? maxWorkers)%nat eqn:Hlt.
    + eapply Hmain; reflexivity.
    + apply Nat.ltb_ge in Hlt.
      destruct (filter_pick holds_slot (st_workers st)) as (i & w & Hn & Hw).
      { unfold in_flight in Hsem. unfold maxWorkers in Hlt. lia. }
      apply (Hworker i w Hn). now destruct w.
  - destruct (st_wg st =? 0)%nat eqn:Hz.
    + eapply Hmain; reflexivity.
    + apply Nat.eqb_neq in Hz. cbn [announced] in Hwg.
      destruct (filter_pick alive (st_workers st)) as (i & w & Hn & Hw); [lia|].
      exact (Hworker i w Hn Hw).
  - destruct (create_ok env); eapply Hmain; reflexivity.
  - discriminate.
Qed.

(** When [main] has returned, every worker is gone and the channel holds
    what the workers sent, in some order. *)
Lemma finished_state (env : environment) (batches : list (list string))
  (st : state) (tsv : option File) :
  invariant env batches st ->
  st_main st = Finished tsv ->
  tsv = output_of env (st_results st) /\
  Permutation (st_results st) (all_sends env (List.length batches)) /\
  work_left env st = 0%nat.
Proof.
  intros [Hcap _ _ Hwg Hmain Hres] Em. rewrite Em in Hmain.
  destruct Hmain as (Hlen & Hz & Htsv).
  rewrite Hz, Em, Nat.add_0_r in Hwg. symmetry in Hwg.
  destruct (no_alive_no_work _ Hwg) as [Hp Hw].
  rewrite Hp, app_nil_r, Hlen, Hcap in Hres.
  repeat split; try assumption.
  unfold work_left. now rewrite Em, Hw.
Qed.

(** ** writePackage *)

Lemma fold_left_WriteString {A : Type} (f : A -> string) (l : list A) :
  forall tsv : File,
    fold_left (fun tsv x => WriteString tsv (f x)) l tsv = tsv ++ map f l.
Proof.
  induction l as [|x l IH]; intros tsv; cbn.
  - now rewrite app_nil_r.
  - rewrite IH. unfold WriteString. now rewrite <- app_assoc.
Qed.

Lemma writePackage_app (pkg : ExperimentPackage.t) (tsv : File) :
  writePackage pkg tsv = tsv ++ writePackage pkg [].
Proof.
  unfold writePackage. now rewrite !fold_left_WriteString.
Qed.

Lemma write_results_lines (results : list ExperimentPackageSet.t) :
  forall tsv : File, write_results results tsv = tsv ++ lines_of results.
Proof.
  unfold write_results, lines_of.
  induction results as [|pkgSet results IH]; intros tsv; cbn.
  - now rewrite app_nil_r.
  - rewrite IH. rewrite app_assoc. f_equal.
    generalize tsv. clear.
    induction (ExperimentPackageSet.Packages pkgSet) as [|pkg pkgs IHp];
      intros tsv; cbn.
    + now rewrite app_nil_r.
    + rewrite IHp, (writePackage_app pkg tsv). now rewrite <- app_assoc.
Qed.

Lemma split_line_tab (col rest : string) :
  plain col = true ->
  split_line (col ++ String "009"%char rest) = col :: split_line rest.
Proof.
  induction col as [|c col IH]; intros Hp; [reflexivity|].
  cbn [plain] in Hp. apply andb_prop in Hp. destruct Hp as [Hc Hp].
  apply andb_prop in Hc. destruct Hc as [H9 H10].
  apply negb_true_iff in H9, H10.
  cbn [String.append split_line]. rewrite H9, H10, (IH Hp). reflexivity.
Qed.

Lemma split_line_newline (col rest : string) :
  plain col = true ->
  split_line (col ++ String "010"%char rest) = [col].
Proof.
  induction col as [|c col IH]; intros Hp; [reflexivity|].
  cbn [plain] in Hp. apply andb_prop in Hp. destruct Hp as [Hc Hp].
  apply andb_prop in Hc. destruct Hc as [H9 H10].
  apply negb_true_iff in H9, H10.
  cbn [String.append split_line]. rewrite H9, H10, (IH Hp). reflexivity.
Qed.

(** The ten columns joined by tabs and ended by a newline read back as
    the ten columns. *)
Lemma split_row (c1 c2 c3 c4 c5 c6 c7 c8 c9 c10 : string) :
  Forall (fun c => plain c = true) [c1; c2; c3; c4; c5; c6; c7; c8; c9; c10] ->
  split_line
    (c1 ++ tab ++ c2 ++ tab ++ c3 ++ tab ++ c4 ++ tab ++ c5 ++ tab ++
     c6 ++ tab ++ c7 ++ tab ++ c8 ++ tab ++ c9 ++ tab ++ c10 ++ newline)
  = [c1; c2; c3; c4; c5; c6; c7; c8; c9; c10].
Proof.
  intros Hall.
  repeat match goal with
         | H : Forall _ (_ :: _) |- _ => inversion H; subst; clear H
         end.
  unfold tab, newline. cbn [String.append].
  rewrite !split_line_tab by assumption.
  now rewrite split_line_newline by assumption.
Qed.

(** The line [writePackage] writes for a run, character by character. *)
Lemma run_line_spelled (pkg : ExperimentPackage.t) (run : Run.t) :
  let sample := ExperimentPackage.Sample pkg in
  let ids := Sample.Identifiers sample in
  let attrs := Sample.Attributes sample in
  run_line pkg (bioproject_of pkg) (extractIdentifier ids "BioSample")
    (submitter_of pkg) (extractSampleValue attrs "collection_date")
    (extractSampleValue attrs "geo_loc_name")
    (extractSampleValue attrs "ww_population") run
  = (Run.Accession run ++ tab ++
     first_nonempty
       [Experiment.BioProject (ExperimentPackage.Experiment pkg);
        extractIdentifier ids "BioProject";
        extractSampleValue attrs "bioproject"] ++ tab ++
     extractIdentifier ids "BioSample" ++ tab ++
     first_nonempty
       [Organization.Name (ExperimentPackage.Organization pkg);
        extractSampleValue attrs "submitter";
        extractSampleValue attrs "submitted_by";
        extractSampleValue attrs "center_name"] ++ tab ++
     extractSampleValue attrs "collection_date" ++ tab ++
     extractSampleValue attrs "geo_loc_name" ++ tab ++
     extractSampleValue attrs "ww_population" ++ tab ++
     Run.TotalSpots run ++ tab ++
     first_nonempty [Run.ReleaseDate run; ExperimentPackage.ReleaseDate pkg]
       ++ tab ++
     first_nonempty [Run.LoadDate run; ExperimentPackage.LoadDate pkg]
       ++ newline)%string.
Proof.
  cbn zeta. unfold run_line, Sprintf_row, bioproject_of, submitter_of.
  cbn [first_nonempty].
  repeat match goal with
         | |- context [if (?x =? "")%string then _ else _] =>
             destruct (String.eqb_spec x "") as [->|?]
         end; reflexivity.
Qed.

(** C8: [writePackage] appends exactly one line per run of the package, in
    the order of the runs, whatever the package and the run lack.  The line
    of a run is its accession, the six columns BioProject, BioSample,
    submitter, collection date, location and population, which are
    computed from the package alone and so are the same in every line of
    the package, then the spot count and the release and load dates of the
    run (a date the run lacks is taken from the package), joined by nine
    tabs and ended by a newline; when no value holds a tab or a newline,
    the line splits back at its tabs into these ten columns. *)
Theorem one_row_per_run (pkg : ExperimentPackage.t) (tsv : File) :
  let sample := ExperimentPackage.Sample pkg in
  let ids := Sample.Identifiers sample in
  let attrs := Sample.Attributes sample in
  let runs := RunSet.Runs (ExperimentPackage.RunSet pkg) in
  let bioproject :=
    first_nonempty
      [Experiment.BioProject (ExperimentPackage.Experiment pkg);
       extractIdentifier ids "BioProject";
       extractSampleValue attrs "bioproject"] in
  let biosample := extractIdentifier ids "BioSample" in
  let submitter :=
    first_nonempty
      [Organization.Name (ExperimentPackage.Organization pkg);
       extractSampleValue attrs "submitter";
       extractSampleValue attrs "submitted_by";
       extractSampleValue attrs "center_name"] in
  let collDate := extractSampleValue attrs "collection_date" in
  let geoLoc := extractSampleValue attrs "geo_loc_name" in
  let pop := extractSampleValue attrs "ww_population" in
  let releaseDate := fun run =>
    first_nonempty [Run.ReleaseDate run; ExperimentPackage.ReleaseDate pkg] in
  let loadDate := fun run =>
    first_nonempty [Run.LoadDate run; ExperimentPackage.LoadDate pkg] in
  let row := fun run =>
    (Run.Accession run ++ tab ++ bioproject ++ tab ++ biosample ++ tab ++
     submitter ++ tab ++ collDate ++ tab ++ geoLoc ++ tab ++ pop ++ tab ++
     Run.TotalSpots run ++ tab ++ releaseDate run ++ tab ++ loadDate run ++
     newline)%string in
  writePackage pkg tsv = tsv ++ map row runs /\
  List.length (writePackage pkg tsv) = (List.length tsv + List.length runs)%nat /\
  (forall i run,
      nth_error runs i = Some run ->
      nth_error (writePackage pkg tsv) (List.length tsv + i) = Some (row run)) /\
  (forall run,
      Forall (fun c => plain c = true)
        [Run.Accession run; bioproject; biosample; submitter; collDate;
         geoLoc; pop; Run.TotalSpots run; releaseDate run; loadDate run] ->
      split_line (row run) =
        [Run.Accession run; bioproject; biosample; submitter; collDate;
         geoLoc; pop; Run.TotalSpots run; releaseDate run; loadDate run]).
Proof.
  cbn zeta.
  assert (Hfile :
            writePackage pkg tsv =
            tsv ++ map (fun run =>
                          run_line pkg (bioproject_of pkg)
                            (extractIdentifier
                               (Sample.Identifiers (ExperimentPackage.Sample pkg))
                               "BioSample")
                            (submitter_of pkg)
                            (extractSampleValue
                               (Sample.Attributes (ExperimentPackage.Sample pkg))
                               "collection_date")
                            (extractSampleValue
                               (Sample.Attributes (ExperimentPackage.Sample pkg))
                               "geo_loc_name")
                            (extractSampleValue
                               (Sample.Attributes (ExperimentPackage.Sample pkg))
                               "ww_population") run)
                     (RunSet.Runs (ExperimentPackage.RunSet pkg))).
  { unfold writePackage. now rewrite fold_left_WriteString. }
  rewrite Hfile.
  rewrite (map_ext _ _ (run_line_spelled pkg)). cbn zeta.
  split; [reflexivity|].
  split; [now rewrite length_app, length_map|].
  split.
  - intros i run Hnth.
    rewrite nth_error_app2 by lia.
    replace (List.length tsv + i - List.length tsv)%nat with i by lia.
    rewrite nth_error_map, Hnth. reflexivity.
  - intros run Hplain. now apply split_row.
Qed.

(** ** The pipeline: a batch that always fails *)

Lemma worker_loop_success (fetch : nat -> fetched) (a : nat)
  (pkgSet : ExperimentPackageSet.t) :
  forall (remaining attempt : nat) (err : option string),
    (attempt <= a < attempt + remaining)%nat ->
    (forall b, (attempt <= b < a)%nat -> exists e, fetch b = inr e) ->
    fetch a = inl pkgSet ->
    sends (worker_loop remaining attempt err fetch) = [pkgSet].
Proof.
  induction remaining as [|remaining IH]; intros attempt err Ha Hfail Hok; [lia|].
  cbn [worker_loop]. unfold sends in *. rewrite flat_map_app.
  set (pre := if (0 <? attempt)%nat then _ else _).
  assert (Hpre : flat_map (fun e => match e with Send p => [p] | _ => [] end) pre = []).
  { unfold pre. destruct (0 <? attempt)%nat; [| reflexivity].
    destruct (5 <? attempt)%nat; reflexivity. }
  rewrite Hpre. cbn [app flat_map].
  destruct (Nat.eq_dec attempt a) as [->|Hne].
  - now rewrite Hok.
  - destruct (Hfail attempt) as [e E]; [lia|]. rewrite E.
    apply IH; [lia | intros b Hb; apply Hfail; lia | exact Hok].
Qed.

Lemma in_all_sends (env : environment) (n j : nat)
  (pkgSet : ExperimentPackageSet.t) :
  (j < n)%nat -> In pkgSet (sends (worker (fetchBatch env j))) ->
  In pkgSet (all_sends env n).
Proof.
  intros Hj Hin. unfold all_sends. apply in_flat_map.
  exists j. split; [apply in_seq; lia | exact Hin].
Qed.

Lemma in_lines_of (results : list ExperimentPackageSet.t)
  (pkgSet : ExperimentPackageSet.t) (pkg : ExperimentPackage.t) (line : string) :
  In pkgSet results -> In pkg (ExperimentPackageSet.Packages pkgSet) ->
  In line (writePackage pkg []) -> In line (lines_of results).
Proof.
  intros H1 H2 H3. unfold lines_of.
  apply in_flat_map. exists pkgSet. split; [exact H1|].
  apply in_flat_map. exists pkg. now split.
Qed.

(** The lines written for the sets of [results], character by character. *)
Lemma lines_of_spelled (results : list ExperimentPackageSet.t) :
  lines_of results =
  flat_map
    (fun pkgSet =>
       flat_map
         (fun pkg =>
            map (fun run =>
                   (Run.Accession run ++ tab ++
                   first_nonempty
                     [Experiment.BioProject (ExperimentPackage.Experiment pkg);
                      extractIdentifier (Sample.Identifiers (ExperimentPackage.Sample pkg))
                        "BioProject";
                      extractSampleValue (Sample.Attributes (ExperimentPackage.Sample pkg))
                        "bioproject"] ++ tab ++
                   extractIdentifier (Sample.Identifiers (ExperimentPackage.Sample pkg))
                     "BioSample" ++ tab ++
                   first_nonempty
                     [Organization.Name (ExperimentPackage.Organization pkg);
                      extractSampleValue (Sample.Attributes (ExperimentPackage.Sample pkg))
                        "submitter";
                      extractSampleValue (Sample.Attributes (ExperimentPackage.Sample pkg))
                        "submitted_by";
                      extractSampleValue (Sample.Attributes (ExperimentPackage.Sample pkg))
                        "center_name"] ++ tab ++
                   extractSampleValue (Sample.Attributes (ExperimentPackage.Sample pkg))
                     "collection_date" ++ tab ++
                   extractSampleValue (Sample.Attributes (ExperimentPackage.Sample pkg))
                     "geo_loc_name" ++ tab ++
                   extractSampleValue (Sample.Attributes (ExperimentPackage.Sample pkg))
                     "ww_population" ++ tab ++
                   Run.TotalSpots run ++ tab ++
                   first_nonempty [Run.ReleaseDate run; ExperimentPackage.ReleaseDate pkg]
                     ++ tab ++
                   first_nonempty [Run.LoadDate run; ExperimentPackage.LoadDate pkg]
                     ++ newline)%string)
              (RunSet.Runs (ExperimentPackage.RunSet pkg)))
         (ExperimentPackageSet.Packages pkgSet))
    results.
Proof.
  unfold lines_of. apply flat_map_ext. intros pkgSet.
  apply flat_map_ext. intros pkg.
  unfold writePackage. rewrite fold_left_WriteString. cbn [app].
  apply map_ext. intros run. apply run_line_spelled.
Qed.

(** From every state of a run, some schedule of the main goroutine and the
    workers leads to the return of [main]. *)
Lemma can_finish (env : environment) (batches : list (list string)) :
  forall (n : nat) (st : state),
    work_left env st = n ->
    invariant env batches st ->
    exists rest st',
      run env rest st = Some st' /\ is_finished (st_main st') = true.
Proof.
  induction n as [n IH] using lt_wf_ind. intros st Hn Hinv.
  destruct (is_finished (st_main st)) eqn:Hfin.
  - exists [], st. now split.
  - destruct (progress env batches st Hinv Hfin) as (a & st1 & Ha & Hstep).
    pose proof (work_step env a st st1 Hstep) as Hw. rewrite Ha in Hw.
    destruct (IH (work_left env st1)) with (st := st1)
      as (rest & st' & Hrun & Hend); [lia | reflexivity | |].
    + eapply invariant_step; eassumption.
    + exists (a :: rest), st'. cbn [run]. rewrite Hstep. now split.
Qed.

(** C7: when every call of [fetchBatch] for batch [i] fails, its worker
    calls [fetchBatch] exactly [maxRetries] = 7 times, sends nothing on
    [results] and ends by logging the error of the last call.  Whatever the
    other batches do and however the goroutines interleave: the steps of the
    main goroutine and the workers are counted down by [work_left], so a run
    has no more of them than [work_left] of the first state; as long as
    [main] has not returned one of them can be taken, and some schedule
    leads to the return of [main]; and when [main] has returned no step is
    left, the channel holds what the workers sent (so nothing of batch
    [i]), [main] ended fatally only if [os.Create] failed, and otherwise
    the file is the header followed, for every set in the channel, every
    package of the set and every run of the package, by the line of that
    run: its accession, the BioProject, BioSample, submitter, collection
    date, location and population of the package, its spot count and its
    two dates, joined by tabs and ended by a newline; so the file holds
    that line for every run of every package of every batch one of whose
    seven calls succeeded. *)
Theorem failed_batch_is_dropped (env : environment)
  (batches : list (list string)) (i : nat) (errs : nat -> string) :
  (i < List.length batches)%nat ->
  (forall a, (a < maxRetries)%nat -> fetchBatch env i a = inr (errs a)) ->
  let row := fun (pkg : ExperimentPackage.t) (run : Run.t) =>
    (Run.Accession run ++ tab ++
     first_nonempty
       [Experiment.BioProject (ExperimentPackage.Experiment pkg);
        extractIdentifier (Sample.Identifiers (ExperimentPackage.Sample pkg))
          "BioProject";
        extractSampleValue (Sample.Attributes (ExperimentPackage.Sample pkg))
          "bioproject"] ++ tab ++
     extractIdentifier (Sample.Identifiers (ExperimentPackage.Sample pkg))
       "BioSample" ++ tab ++
     first_nonempty
       [Organization.Name (ExperimentPackage.Organization pkg);
        extractSampleValue (Sample.Attributes (ExperimentPackage.Sample pkg))
          "submitter";
        extractSampleValue (Sample.Attributes (ExperimentPackage.Sample pkg))
          "submitted_by";
        extractSampleValue (Sample.Attributes (ExperimentPackage.Sample pkg))
          "center_name"] ++ tab ++
     extractSampleValue (Sample.Attributes (ExperimentPackage.Sample pkg))
       "collection_date" ++ tab ++
     extractSampleValue (Sample.Attributes (ExperimentPackage.Sample pkg))
       "geo_loc_name" ++ tab ++
     extractSampleValue (Sample.Attributes (ExperimentPackage.Sample pkg))
       "ww_population" ++ tab ++
     Run.TotalSpots run ++ tab ++
     first_nonempty [Run.ReleaseDate run; ExperimentPackage.ReleaseDate pkg]
       ++ tab ++
     first_nonempty [Run.LoadDate run; ExperimentPackage.LoadDate pkg]
       ++ newline)%string in
  maxRetries = 7%nat /\
  List.length (filter is_fetch (worker (fetchBatch env i))) = maxRetries /\
  sends (worker (fetchBatch env i)) = [] /\
  last (worker (fetchBatch env i)) (LogFailed None) = LogFailed (Some (errs 6%nat)) /\
  forall sched st,
    run env sched (init_state batches) = Some st ->
    (productive sched + work_left env st)%nat
      = work_left env (init_state batches) /\
    (is_finished (st_main st) = false ->
     exists a st', is_monitor a = false /\ step env a st = Some st') /\
    (exists rest st',
        run env rest st = Some st' /\ is_finished (st_main st') = true) /\
    forall tsv,
      st_main st = Finished tsv ->
      work_left env st = 0%nat /\
      Permutation (st_results st) (all_sends env (List.length batches)) /\
      (tsv = None <-> create_ok env = false) /\
      (create_ok env = true ->
       exists file,
         tsv = Some file /\
         file =
           header ::
           flat_map
             (fun pkgSet =>
                flat_map
                  (fun pkg =>
                     map (row pkg) (RunSet.Runs (ExperimentPackage.RunSet pkg)))
                  (ExperimentPackageSet.Packages pkgSet))
             (st_results st) /\
         forall j a pkgSet pkg run,
           (j < List.length batches)%nat -> (a < maxRetries)%nat ->
           (forall b, (b < a)%nat -> exists e, fetchBatch env j b = inr e) ->
           fetchBatch env j a = inl pkgSet ->
           In pkg (ExperimentPackageSet.Packages pkgSet) ->
           In run (RunSet.Runs (ExperimentPackage.RunSet pkg)) ->
           In (row pkg run) file).
Proof.
  intros Hi Hfail. cbn zeta.
  destruct (worker_loop_all_fail (fetchBatch env i) errs maxRetries 0 None)
    as (Hf & Hs & _ & Hl).
  { intros a Ha. apply Hfail. lia. }
  fold (worker (fetchBatch env i)) in Hf, Hs, Hl.
  split; [reflexivity|]. split; [exact Hf|]. split; [exact Hs|].
  split; [exact Hl|].
  intros sched st Hrun.
  assert (Hinv : invariant env batches st)
    by (apply invariant_reachable; now exists sched).
  split; [symmetry; now apply run_work|].
  split; [now apply (progress env batches)|].
  split; [now apply (can_finish env batches (work_left env st))|].
  intros tsv Em.
  destruct (finished_state env batches st tsv Hinv Em) as (Htsv & Hperm & Hw).
  split; [exact Hw|]. split; [exact Hperm|].
  unfold output_of in Htsv. rewrite write_results_lines in Htsv.
  destruct (create_ok env) eqn:Hc.
  - split; [subst tsv; split; discriminate|].
    intros _. eexists. split; [exact Htsv|].
    split; [cbn [WriteString app]; f_equal; apply lines_of_spelled|].
    intros j a pkgSet pkg run Hj Ha Hbefore Hok Hpkg Hrin.
    right. rewrite lines_of_spelled.
    apply in_flat_map. exists pkgSet. split.
    + apply (Permutation_in _ (Permutation_sym Hperm)).
      apply (in_all_sends env _ j); [exact Hj|].
      unfold worker.
      rewrite (worker_loop_success (fetchBatch env j) a pkgSet);
        [now left | lia | | exact Hok].
      intros b Hb. apply Hbefore. lia.
    + apply in_flat_map. exists pkg. split; [exact Hpkg|].
      apply in_map_iff. exists run. now split.
  - split; [now split | discriminate].
Qed.

(** ** The look-ups *)

Lemma lor_below_RuneSelf (a b : N) :
  (a < RuneSelf -> b < RuneSelf -> N.lor a b < RuneSelf)%N.
Proof.
  unfold RuneSelf. intros Ha Hb.
  destruct (N.eq_dec (N.lor a b) 0) as [E|NE]; [rewrite E; lia|].
  change 128%N with (2 ^ 7)%N. apply N.log2_lt_pow2; [lia|].
  rewrite N.log2_lor.
  assert (La : (N.log2 a < 7)%N).
  { destruct (N.eq_dec a 0) as [->|]; [cbn; lia|].
    apply N.log2_lt_pow2; [lia | exact Ha]. }
  assert (Lb : (N.log2 b < 7)%N).
  { destruct (N.eq_dec b 0) as [->|]; [cbn; lia|].
    apply N.log2_lt_pow2; [lia | exact Hb]. }
  lia.
Qed.

(** Two different bytes pass the letter test of [EqualFold] exactly when
    lowering makes them equal. *)
Lemma fold_byte (sr tr : N) :
  tr <> sr ->
  (((65 <=? N.min sr tr) && (N.min sr tr <=? 90)
    && (N.max sr tr =? N.min sr tr + 32))%N = true
   <-> lower_byte sr = lower_byte tr).
Proof.
  intros NE. unfold lower_byte.
  destruct (N.leb_spec 65 (N.min sr tr)), (N.leb_spec (N.min sr tr) 90),
    (N.eqb_spec (N.max sr tr) (N.min sr tr + 32)),
    (N.leb_spec 65 sr), (N.leb_spec sr 90),
    (N.leb_spec 65 tr), (N.leb_spec tr 90);
    cbn [andb]; split; intros Hyp; try discriminate; try reflexivity; lia.
Qed.

(** On ASCII strings [EqualFold] compares the strings with their upper-case
    letters lowered. *)
Lemma EqualFold_ascii (s : string) :
  forall t : string,
    is_ascii s = true -> is_ascii t = true ->
    (EqualFold s t = true <-> lower_ascii s = lower_ascii t).
Proof.
  induction s as [|sc s IH]; intros [|tc t] Hs Ht; cbn [EqualFold lower_ascii].
  - split; reflexivity.
  - split; discriminate.
  - split; discriminate.
  - cbn [is_ascii] in Hs, Ht.
    apply andb_prop in Hs, Ht. destruct Hs as [Hsc Hs], Ht as [Htc Ht].
    apply N.ltb_lt in Hsc, Htc.
    cbn zeta.
    set (sr := N_of_ascii sc) in *. set (tr := N_of_ascii tc) in *.
    pose proof (lor_below_RuneSelf sr tr Hsc Htc) as Hlor.
    replace (RuneSelf <=? N.lor sr tr)%N with false
      by (symmetry; apply N.leb_gt; exact Hlor).
    specialize (IH t Hs Ht).
    destruct (N.eqb_spec tr sr) as [E|NE].
    + rewrite E, IH. split; [intros ->; reflexivity|].
      intros Hyp. now injection Hyp.
    + pose proof (fold_byte sr tr NE) as Hb.
      destruct ((65 <=? N.min sr tr) && (N.min sr tr <=? 90)
                && (N.max sr tr =? N.min sr tr + 32))%N.
      * rewrite IH. split.
        -- intros ->. f_equal. now apply Hb.
        -- intros Hyp. now injection Hyp.
      * split; [discriminate|].
        intros Hyp. injection Hyp as Hhead _.
        apply Hb in Hhead. discriminate.
Qed.

Lemma extractSampleValue_find (attrs : list SampleAttribute.t) (key : string) :
  extractSampleValue attrs key =
    match find (fun attr => EqualFold (SampleAttribute.Tag attr) key) attrs with
    | Some attr => SampleAttribute.Value attr
    | None => EmptyString
    end.
Proof.
  induction attrs as [|attr attrs IH]; [reflexivity|].
  cbn [extractSampleValue find].
  destruct (EqualFold (SampleAttribute.Tag attr) key); [reflexivity | exact IH].
Qed.

Lemma extractIdentifier_find (ids : list Identifier.t) (ns : string) :
  extractIdentifier ids ns =
    match find (fun id => (Identifier.Namespace id =? ns)%string) ids with
    | Some id => Identifier.Value id
    | None => EmptyString
    end.
Proof.
  induction ids as [|id ids IH]; [reflexivity|].
  cbn [extractIdentifier find].
  destruct (Identifier.Namespace id =? ns)%string; [reflexivity | exact IH].
Qed.

Lemma UnmarshalXML_scan_find (ids : list externalID.t) (e : Experiment.t) :
  Experiment.BioProject (UnmarshalXML_scan ids e) =
    match find (fun ex => (externalID.Namespace ex =? "BioProject")%string) ids with
    | Some ex => TrimSpace (externalID.Value ex)
    | None => Experiment.BioProject e
    end.
Proof.
  induction ids as [|ex ids IH]; [reflexivity|].
  cbn [UnmarshalXML_scan find].
  destruct (externalID.Namespace ex =? "BioProject")%string; [reflexivity | exact IH].
Qed.

(** ** The counter and the progress bar *)

Lemma int32_small (z : Z) : 0 <= z < 2 ^ 31 -> int32 z = z.
Proof.
  intros H. unfold int32.
  rewrite Z.mod_small; lia.
Qed.

Lemma adds_worker_loop (fetch : nat -> fetched) :
  forall (remaining attempt : nat) (err : option string),
    adds (worker_loop remaining attempt err fetch)
    = List.length (sends (worker_loop remaining attempt err fetch)).
Proof.
  induction remaining as [|remaining IH]; intros attempt err; [reflexivity|].
  cbn [worker_loop]. unfold adds, sends in *.
  rewrite filter_app, flat_map_app, !length_app.
  set (pre := if (0 <? attempt)%nat then _ else _).
  assert (Hpre :
            filter (fun e => match e with AddCompleted => true | _ => false end) pre = []
            /\ flat_map (fun e => match e with Send p => [p] | _ => [] end) pre = []).
  { unfold pre. destruct (0 <? attempt)%nat; [| now split].
    destruct (5 <? attempt)%nat; now split. }
  destruct Hpre as [-> ->]. cbn [List.length filter flat_map app Nat.add].
  destruct (fetch attempt) as [pkgSet|e]; [reflexivity | apply IH].
Qed.

Lemma all_adds_succ (env : environment) (n : nat) :
  all_adds env (S n) = (all_adds env n + adds (worker (fetchBatch env n)))%nat.
Proof.
  unfold all_adds. rewrite seq_S, map_app, list_sum_app. cbn. lia.
Qed.

Lemma all_adds_sends (env : environment) (n : nat) :
  all_adds env n = List.length (all_sends env n).
Proof.
  induction n as [|n IH]; [reflexivity|].
  rewrite all_adds_succ, all_sends_succ, length_app, IH.
  unfold worker. now rewrite adds_worker_loop.
Qed.

Lemma all_adds_le (env : environment) (n : nat) : (all_adds env n <= n)%nat.
Proof.
  rewrite all_adds_sends. apply all_sends_length.
Qed.

Lemma delivered_app (bar1 bar2 : list pb_call) :
  delivered (bar1 ++ bar2) = delivered bar1 ++ delivered bar2.
Proof. unfold delivered. apply flat_map_app. Qed.

Lemma sorted_snoc (l : list Z) (x : Z) :
  StronglySorted Z.lt l -> Forall (fun v => v < x) l ->
  StronglySorted Z.lt (l ++ [x]).
Proof.
  induction 1 as [|a l Hs IH Ha]; intros Hx; cbn.
  - repeat constructor.
  - inversion Hx as [|? ? Hax Hlx]; subst.
    constructor; [now apply IH|].
    apply Forall_app. split; [exact Ha | now repeat constructor].
Qed.

Lemma counter_init (env : environment) (batches : list (list string)) :
  Z.of_nat (List.length batches) < 2 ^ 31 ->
  counter_invariant env (init_state batches).
Proof.
  intros Hsmall. constructor; cbn; try lia; try constructor.
  apply int32_small. lia.
Qed.

Lemma counter_step (env : environment) (batches : list (list string))
  (a : action) (st st' : state) :
  Z.of_nat (List.length batches) < 2 ^ 31 ->
  invariant env batches st -> counter_invariant env st ->
  step env a st = Some st' ->
  counter_invariant env st'.
Proof.
  intros Hsmall Hinv [Htot Hsum Hnn Hlast Hbar Hsort Hlatest Hstop] Hstep.
  pose proof (workers_within_cap env batches st Hinv) as Hcap.
  destruct Hinv as [Hcapeq _ _ _ Hmain _].
  unfold step in Hstep.
  destruct (is_finished (st_main st)); [discriminate|].
  destruct st as [m total cap sem wg ws comp res lst mon bar err].
  fields.
  destruct a as [|i|].
  - (* the main goroutine *)
    unfold main_step, with_main in Hstep. fields.
    destruct m as [[|batch rest] next|batch rest next| | |tsv]; fields.
    + injection Hstep as <-. constructor; fields; assumption.
    + injection Hstep as <-. constructor; fields; assumption.
    + destruct (sem <? maxWorkers)%nat; [| discriminate].
      injection Hstep as <-. destruct Hmain as [-> _].
      constructor; fields; try assumption.
      rewrite map_app, list_sum_app, length_app. cbn [map list_sum List.length].
      rewrite Nat.add_1_r, all_adds_succ.
      cbn [pending_adds]. rewrite list_sum_cons, list_sum_nil. lia.
    + destruct (wg =? 0)%nat; [| discriminate]. injection Hstep as <-.
      constructor; fields; try assumption;
        rewrite delivered_app; cbn; now rewrite app_nil_r.
    + destruct (create_ok env); injection Hstep as <-;
        constructor; fields; assumption.
    + discriminate.
  - (* a worker *)
    unfold worker_step, with_worker in Hstep. fields.
    destruct (nth_error ws i) as [w|] eqn:Hnth; [| discriminate].
    destruct (set_nth_split ws i w Hnth) as (l1 & l2 & -> & Hlen & Hset).
    pose proof (all_adds_le env (List.length (l1 ++ w :: l2))) as Hle.
    rewrite map_app, list_sum_app in Hsum. cbn [map] in Hsum.
    rewrite list_sum_cons in Hsum.
    destruct w as [[|ev todo]| |]; rewrite ?Hset in Hstep; cbn [pending_adds] in Hsum.
    + injection Hstep as <-.
      constructor; fields; try assumption.
      rewrite map_app, list_sum_app, !length_app in *. cbn [map List.length] in *.
      rewrite list_sum_cons. cbn [pending_adds]. exact Hsum.
    + assert (Hsame :
                forall res' err',
                  adds (ev :: todo) = adds todo ->
                  counter_invariant env
                    (mkState m total cap sem wg (l1 ++ Running todo :: l2)
                       comp res' lst mon bar err')).
      { intros res' err' Hadds.
        constructor; fields; try assumption.
        rewrite map_app, list_sum_app, !length_app in *. cbn [map List.length] in *.
        rewrite list_sum_cons. cbn [pending_adds]. rewrite <- Hadds. exact Hsum. }
      destruct ev as [d|d|at_|pkgSet| |e]; fields;
        try (injection Hstep as <-; now apply Hsame).
      * destruct (List.length res <? cap)%nat; [| discriminate].
        injection Hstep as <-. now apply Hsame.
      * injection Hstep as <-.
        assert (Hadds : adds (AddCompleted :: todo) = S (adds todo)) by reflexivity.
        rewrite Hadds in Hsum.
        rewrite int32_small by lia.
        constructor; fields; try assumption; try lia.
        rewrite map_app, list_sum_app, !length_app in *. cbn [map List.length] in *.
        rewrite list_sum_cons. cbn [pending_adds]. lia.
    + injection Hstep as <-.
      constructor; fields; try assumption.
      rewrite map_app, list_sum_app, !length_app in *. cbn [map List.length] in *.
      rewrite list_sum_cons. cbn [pending_adds]. exact Hsum.
    + discriminate.
  - (* the monitor *)
    unfold monitor_step in Hstep. fields.
    destruct mon; [| discriminate]. injection Hstep as <-.
    assert (Hexit : negb (total <=? comp) = false -> total <= comp).
    { destruct (Z.leb_spec total comp); [intros _; assumption | discriminate]. }
    destruct (Z.ltb_spec lst comp) as [Hlt|Hge].
    + constructor; fields; try assumption; try lia.
      * rewrite delivered_app. apply Forall_app. split.
        -- eapply Forall_impl; [| exact Hbar]. cbn. intros v Hv. lia.
        -- cbn. repeat constructor; lia.
      * rewrite delivered_app. cbn. apply sorted_snoc; [exact Hsort|].
        eapply Forall_impl; [| exact Hbar]. cbn. intros v Hv. lia.
      * rewrite delivered_app. cbn. apply last_last.
    + constructor; fields; try assumption.
      intros Hoff. apply Hexit in Hoff. lia.
Qed.

Lemma counter_reachable (env : environment) (batches : list (list string))
  (st : state) :
  Z.of_nat (List.length batches) < 2 ^ 31 ->
  reachable env batches st -> counter_invariant env st.
Proof.
  intros Hsmall [sched Hrun].
  assert (H : invariant env batches st /\ counter_invariant env st);
    [| now destruct H].
  eapply (run_preserves env
            (fun s => invariant env batches s /\ counter_invariant env s));
    [| split; [apply invariant_init | now apply counter_init] | exact Hrun].
  intros a s s' [Hi Hc] Hstep. split.
  - eapply invariant_step; eassumption.
  - eapply counter_step; eassumption.
Qed.

(** [completed] never exceeds the number of sets the workers send in all,
    hence the number of batches. *)
Lemma completed_bounded (env : environment)
  (batches : list (list string)) (st : state) :
  Z.of_nat (List.length batches) < 2 ^ 31 ->
  reachable env batches st ->
  0 <= st_completed st
    <= Z.of_nat (List.length (all_sends env (List.length batches))) /\
  (List.length (all_sends env (List.length batches))
   <= List.length batches)%nat.
Proof.
  intros Hsmall Hreach.
  pose proof (invariant_reachable env batches st Hreach) as Hinv.
  pose proof (workers_within_cap env batches st Hinv) as Hcap.
  destruct (counter_reachable env batches st Hsmall Hreach)
    as [Htot Hsum Hnn Hlast Hbar Hsort Hlatest Hstop].
  destruct Hinv as [Hcapeq _ _ _ _ _].
  assert (Hmono : (all_adds env (List.length (st_workers st))
                   <= all_adds env (List.length batches))%nat).
  { rewrite <- Hcapeq. revert Hcap. generalize (st_cap st) as n.
    intros n Hn. induction Hn as [|n Hn IH]; [lia|].
    rewrite all_adds_succ. lia. }
  rewrite <- all_adds_sends.
  split; [lia | apply all_adds_le].
Qed.

(** C2, in the form that holds: in every state of a run (with fewer than
    2^31 batches) the values the bar received through [pb.SetProgress] are
    strictly increasing and lie between 1 and the number of batches, and
    once the monitor has left its loop the last of them is the number of
    batches.  Nothing makes the monitor leave its loop before [main]
    returns. *)
Theorem progress_values_increase (env : environment)
  (batches : list (list string)) (st : state) :
  Z.of_nat (List.length batches) < 2 ^ 31 ->
  reachable env batches st ->
  st_total st = Z.of_nat (List.length batches) /\
  StronglySorted Z.lt (delivered (st_bar st)) /\
  Forall (fun v => 1 <= v <= st_total st) (delivered (st_bar st)) /\
  (st_monitor st = false -> last (delivered (st_bar st)) 0 = st_total st).
Proof.
  intros Hsmall Hreach.
  destruct (completed_bounded env batches st Hsmall Hreach) as [Hc Hle].
  pose proof (invariant_reachable env batches st Hreach) as Hinv.
  destruct (counter_reachable env batches st Hsmall Hreach)
    as [Htot Hsum Hnn Hlast Hbar Hsort Hlatest Hstop].
  destruct Hinv as [Hcapeq _ _ _ _ _].
  rewrite Hcapeq in Htot.
  split; [exact Htot|]. split; [exact Hsort|]. split.
  - eapply Forall_impl; [| exact Hbar]. cbn. intros v Hv. lia.
  - intros Hoff. specialize (Hstop Hoff). rewrite Hlatest. lia.
Qed.

(** When [main] has returned, [completed] is the number of sets fetched:
    the batches whose worker failed are not in it. *)
Lemma completed_counts_fetched (env : environment)
  (batches : list (list string)) (st : state) (tsv : option File) :
  Z.of_nat (List.length batches) < 2 ^ 31 ->
  reachable env batches st ->
  st_main st = Finished tsv ->
  st_completed st = Z.of_nat (List.length (st_results st)) /\
  Permutation (st_results st) (all_sends env (List.length batches)).
Proof.
  intros Hsmall Hreach Em.
  pose proof (invariant_reachable env batches st Hreach) as Hinv.
  destruct (counter_reachable env batches st Hsmall Hreach)
    as [_ Hsum _ _ _ _ _ _].
  destruct (finished_state env batches st tsv Hinv Em) as (_ & Hperm & _).
  split; [| exact Hperm].
  destruct Hinv as [Hcapeq _ _ Hwg Hmain _]. rewrite Em in Hmain.
  destruct Hmain as (Hlen & Hz & _).
  rewrite Hz in Hwg. symmetry in Hwg.
  assert (Hp : list_sum (map pending_adds (st_workers st)) = 0%nat).
  { revert Hwg. clear. induction (st_workers st) as [|w ws IH]; [reflexivity|].
    destruct w; cbn; try discriminate. exact IH. }
  rewrite Hp, Hlen, Hcapeq, all_adds_sends in Hsum.
  rewrite (Permutation_length Hperm). lia.
Qed.


(** C4, in the form that holds: the BioProject column is the first non-empty string
    among (1) the text, with leading and trailing white space trimmed, of
    the first STUDY_REF external identifier whose namespace is BioProject,
    (2) the value of the first sample identifier whose namespace is
    BioProject, (3) the value of the first sample attribute whose tag folds
    to bioproject; so when (1) is not empty it is the result, whatever the
    sample carries. *)
Theorem bioproject_precedence (aux e : Experiment.t)
  (pkg : ExperimentPackage.t) :
  Experiment.BioProject aux = EmptyString ->
  UnmarshalXML (inl aux) = inl e ->
  ExperimentPackage.Experiment pkg = e ->
  let sample := ExperimentPackage.Sample pkg in
  let from_study :=
    match find (fun ex => (externalID.Namespace ex =? "BioProject")%string)
               (studyRef.ExternalIDs (Experiment.Study aux)) with
    | Some ex => TrimSpace (externalID.Value ex)
    | None => EmptyString
    end in
  let from_identifiers :=
    match find (fun id => (Identifier.Namespace id =? "BioProject")%string)
               (Sample.Identifiers sample) with
    | Some id => Identifier.Value id
    | None => EmptyString
    end in
  let from_attributes :=
    match find (fun attr => EqualFold (SampleAttribute.Tag attr) "bioproject")
               (Sample.Attributes sample) with
    | Some attr => SampleAttribute.Value attr
    | None => EmptyString
    end in
  bioproject_of pkg =
    first_nonempty [from_study; from_identifiers; from_attributes] /\
  (from_study <> EmptyString -> bioproject_of pkg = from_study).
Proof.
  intros Haux Hdec Hexp. cbn zeta.
  cbn [UnmarshalXML] in Hdec. injection Hdec as <-.
  unfold bioproject_of. rewrite Hexp.
  rewrite UnmarshalXML_scan_find, Haux.
  rewrite extractIdentifier_find, extractSampleValue_find.
  cbn [first_nonempty].
  set (c1 := match find _ (studyRef.ExternalIDs _) with Some _ => _ | None => _ end).
  set (c2 := match find _ (Sample.Identifiers _) with Some _ => _ | None => _ end).
  set (c3 := match find _ (Sample.Attributes _) with Some _ => _ | None => _ end).
  split.
  - destruct (c1 =? "")%string; [| reflexivity].
    destruct (c2 =? "")%string; [| reflexivity].
    destruct (String.eqb_spec c3 ""); [now symmetry | reflexivity].
  - intros Hne. apply String.eqb_neq in Hne. now rewrite Hne.
Qed.

(** C5, in the form that holds: for the package of the example, the file [main]
    leaves holds the header line and then the ten columns SRR000001,
    PRJNA000, SAMN000, ACME Lab, 2024-01-01 and five empty ones, separated
    by nine tabs (five of them after the date) and ended by a newline. *)
Theorem end_to_end_example :
  contents
    (write_results [ExperimentPackageSet.mk [example_package]]
       (WriteString [] header)) =
  (header ++
   "SRR000001" ++ tab ++ "PRJNA000" ++ tab ++ "SAMN000" ++ tab ++
   "ACME Lab" ++ tab ++ "2024-01-01" ++ tab ++ tab ++ tab ++ tab ++ tab ++
   newline)%string.
Proof. reflexivity. Qed.

(** ** Runs with a failed batch *)

(** C1 (the code departs from it): in the run [schedule_one_failing] on a
    single identifier, whose only batch fails on all seven calls, every
    goroutine is gone and [main] has returned, the total is 1 batch, and
    [completed] is still 0: the failed batch was never counted. *)
Theorem failed_batch_not_counted :
  exists st0 st,
    main_init ["SRX1"%string] = Returned st0 /\
    run failing_env schedule_one_failing st0 = Some st /\
    st_main st = Finished (Some [header]) /\
    st_workers st = [Exited] /\
    st_total st = 1 /\
    st_completed st = 0.
Proof.
  eexists. eexists. split; [reflexivity|].
  split; [vm_compute; reflexivity|]. repeat split.
Qed.

(** The failed batch seen from the bar: in the run [schedule_one_of_two]
    on 101 identifiers (two batches, the second failing), [main] has
    returned, the bar was told 2 batches and received the single progress
    value 1, never 2; the monitor, polled again after the last worker was
    gone, is still in its loop. *)
Lemma progress_stops_short :
  exists st0 st,
    main_init (repeat "SRX1"%string 101) = Returned st0 /\
    run first_only_env schedule_one_of_two st0 = Some st /\
    is_finished (st_main st) = true /\
    st_workers st = [Exited; Exited] /\
    st_total st = 2 /\
    st_bar st = [PbStart 2; PbSetProgress 1; PbFinish] /\
    delivered (st_bar st) = [1] /\
    st_monitor st = true.
Proof.
  eexists. eexists. split; [vm_compute; reflexivity|].
  split; [vm_compute; reflexivity|]. repeat split.
Qed.

(* ================================================================== *)
(** * Further properties of the code *)

(** ** chunkIDs outside its intended use, and the batches of [main] *)

(** X2: with a negative chunk size [chunkIDs] panics on every input (the
    loop test holds and [ids[size:]] is out of range); with chunk size zero
    it never leaves its loop on a non-empty input, whatever the number of
    turns it is given, and returns a single empty batch on the empty
    input. *)
Theorem chunkIDs_bad_size :
  (forall ids size, size < 0 -> chunkIDs ids size = Panicked) /\
  (forall fuel ids chunks,
      ids <> [] -> chunkIDs_loop fuel ids chunks 0 = OutOfFuel) /\
  chunkIDs [] 0 = Returned [[]].
Proof.
  split; [| split; [| reflexivity]].
  - intros ids size Hneg. unfold chunkIDs.
    destruct (List.length ids) as [|n] eqn:E; cbn [chunkIDs_loop]; rewrite E;
      replace (size <? Z.of_nat _) with true by (symmetry; apply Z.ltb_lt; lia);
      replace (size <? 0) with true by (symmetry; apply Z.ltb_lt; lia);
      reflexivity.
  - induction fuel as [|fuel IH]; intros ids chunks Hne; cbn [chunkIDs_loop].
    + destruct ids as [|i ids]; [now elim Hne | reflexivity].
    + destruct ids as [|i ids]; [now elim Hne|].
      cbn [List.length]. rewrite Nat2Z.inj_succ.
      replace (0 <? Z.succ (Z.of_nat (List.length ids))) with true
        by (symmetry; apply Z.ltb_lt; lia).
      cbn [Z.ltb Z.compare Z.to_nat skipn]. now apply IH.
Qed.

Lemma Forall_from_last {A : Type} (P : A -> Prop) (l : list A) (d : A) :
  l <> [] -> Forall P (removelast l) -> P (last l d) -> Forall P l.
Proof.
  intros Hne Hinit Hlast.
  rewrite (app_removelast_last d Hne).
  apply Forall_app. split; [exact Hinit | now constructor].
Qed.

(** The batches [main] cuts the listed identifiers into. *)
Lemma main_init_spec (ids : list string) :
  exists batches,
    main_init ids = Returned (init_state batches) /\
    batches <> [] /\
    concat batches = ids /\
    Forall (fun b => (List.length b <= 100)%nat) batches /\
    (ids <> [] -> Forall (fun b => b <> []) batches) /\
    (ids = [] -> batches = [[]]).
Proof.
  destruct (chunkIDs_loop_spec (List.length ids) ids [] batchSize)
    as (batches & E & Hcat & Hlen & Hall & Hlast & Hne);
    [reflexivity | apply Nat.le_refl |].
  cbn [app] in E. unfold batchSize in *.
  assert (Hnonnil : batches <> []).
  { intros ->. cbn in Hlen. lia. }
  exists batches. unfold main_init, chunkIDs, batchSize.
  rewrite E. split; [reflexivity|]. split; [exact Hnonnil|].
  split; [exact Hcat|]. split; [| split].
  - apply (Forall_from_last _ _ []); [exact Hnonnil | | lia].
    eapply Forall_impl; [| exact Hall]. cbn. intros b Hb. lia.
  - intros Hids.
    apply (Forall_from_last _ _ []); [exact Hnonnil | | now apply Hne].
    eapply Forall_impl; [| exact Hall]. cbn. intros b Hb ->. cbn in Hb. lia.
  - intros ->. cbn [List.length] in Hlen.
    rewrite ceil_div_zero in Hlen by lia.
    destruct batches as [|b [|b' rest]]; cbn in Hlen; try lia.
    cbn in Hcat. rewrite app_nil_r in Hcat. now subst b.
Qed.

(** X3: [main] always gets its batches (the constant chunk size 100 makes
    [chunkIDs] return): there is at least one, they concatenate to the
    identifiers listed, none has more than 100 identifiers, none is empty
    when an identifier was listed, and when none was listed there is exactly
    one batch, the empty one, for which a worker is still launched. *)
Theorem main_batches (ids : list string) :
  exists batches,
    main_init ids = Returned (init_state batches) /\
    batches <> [] /\
    concat batches = ids /\
    Forall (fun b => (List.length b <= 100)%nat) batches /\
    (ids <> [] -> Forall (fun b => b <> []) batches) /\
    (ids = [] -> batches = [[]]).
Proof. exact (main_init_spec ids). Qed.

(** ** The fall-back chains of writePackage *)

(** X1: the submitter column is the first non-empty string among the
    organization name and the values of the first attributes whose tags
    fold to submitter, submitted_by and center_name, in this order; a
    non-empty organization name always wins, and the column is empty
    exactly when all four are empty. *)
Theorem submitter_precedence (pkg : ExperimentPackage.t) :
  let attrs := Sample.Attributes (ExperimentPackage.Sample pkg) in
  let name := Organization.Name (ExperimentPackage.Organization pkg) in
  let attribute key :=
    match find (fun attr => EqualFold (SampleAttribute.Tag attr) key) attrs with
    | Some attr => SampleAttribute.Value attr
    | None => EmptyString
    end in
  submitter_of pkg =
    first_nonempty [name; attribute "submitter"%string;
                    attribute "submitted_by"%string;
                    attribute "center_name"%string] /\
  (name <> EmptyString -> submitter_of pkg = name) /\
  (submitter_of pkg = EmptyString <->
   name = EmptyString /\ attribute "submitter"%string = EmptyString /\
   attribute "submitted_by"%string = EmptyString /\
   attribute "center_name"%string = EmptyString).
Proof.
  clear TrimFunc_IsSpace TrimRightFunc_IsSpace.
  cbn zeta. unfold submitter_of. rewrite !extractSampleValue_find.
  cbn [first_nonempty].
  set (name := Organization.Name _).
  set (c1 := match find (fun attr => EqualFold _ "submitter") _ with
             | Some _ => _ | None => _ end).
  set (c2 := match find (fun attr => EqualFold _ "submitted_by") _ with
             | Some _ => _ | None => _ end).
  set (c3 := match find (fun attr => EqualFold _ "center_name") _ with
             | Some _ => _ | None => _ end).
  destruct (String.eqb_spec name ""), (String.eqb_spec c1 ""),
    (String.eqb_spec c2 ""), (String.eqb_spec c3 "");
    repeat split; try tauto; try congruence; intuition congruence.
Qed.

(** ** Experiment.UnmarshalXML *)

Lemma UnmarshalXML_scan_frame (ids : list externalID.t) (e : Experiment.t) :
  let e' := UnmarshalXML_scan ids e in
  Experiment.Accession e' = Experiment.Accession e /\
  Experiment.Title e' = Experiment.Title e /\
  Experiment.Library e' = Experiment.Library e /\
  Experiment.Study e' = Experiment.Study e.
Proof.
  induction ids as [|ex ids IH]; cbn zeta; cbn [UnmarshalXML_scan].
  - repeat split.
  - destruct (externalID.Namespace ex =? "BioProject")%string;
      [repeat split | exact IH].
Qed.

(** X4: [UnmarshalXML] hands the decoder's error on unchanged; otherwise it
    succeeds, leaves the accession, title, library descriptor and study
    reference as decoded, and touches [BioProject] only when some STUDY_REF
    identifier has the namespace BioProject. *)
Theorem UnmarshalXML_frame :
  (forall err, UnmarshalXML (inr err) = inr err) /\
  (forall aux,
      exists e,
        UnmarshalXML (inl aux) = inl e /\
        Experiment.Accession e = Experiment.Accession aux /\
        Experiment.Title e = Experiment.Title aux /\
        Experiment.Library e = Experiment.Library aux /\
        Experiment.Study e = Experiment.Study aux /\
        ((forall ex,
             In ex (studyRef.ExternalIDs (Experiment.Study aux)) ->
             externalID.Namespace ex <> "BioProject"%string) ->
         Experiment.BioProject e = Experiment.BioProject aux)).
Proof.
  split; [reflexivity|].
  intros aux. eexists. split; [reflexivity|].
  destruct (UnmarshalXML_scan_frame
              (studyRef.ExternalIDs (Experiment.Study aux)) aux)
    as (H1 & H2 & H3 & H4).
  repeat (split; [assumption|]).
  intros Hnone. rewrite UnmarshalXML_scan_find.
  destruct (find _ _) as [ex|] eqn:Efind; [| reflexivity].
  apply find_some in Efind. destruct Efind as [Hin Hns].
  apply String.eqb_eq in Hns. now elim (Hnone ex Hin).
Qed.

(** ** The attribute look-up and the case of the key *)

(** X6: on ASCII tags and keys the look-up does not depend on the letter
    case of the key: two keys that differ only in the case of their letters
    give the same value on every attribute list. *)
Theorem lookup_ignores_key_case (attrs : list SampleAttribute.t)
  (key key' : string) :
  Forall (fun attr => is_ascii (SampleAttribute.Tag attr) = true) attrs ->
  is_ascii key = true -> is_ascii key' = true ->
  lower_ascii key = lower_ascii key' ->
  extractSampleValue attrs key = extractSampleValue attrs key'.
Proof.
  intros Htags Hk Hk' Hlow.
  induction Htags as [|attr attrs Htag _ IH]; [reflexivity|].
  cbn [extractSampleValue].
  pose proof (EqualFold_ascii (SampleAttribute.Tag attr) key Htag Hk) as H1.
  pose proof (EqualFold_ascii (SampleAttribute.Tag attr) key' Htag Hk') as H2.
  rewrite Hlow in H1.
  destruct (EqualFold (SampleAttribute.Tag attr) key),
    (EqualFold (SampleAttribute.Tag attr) key'); try reflexivity; try exact IH.
  - assert (false = true) by (apply H2, H1; reflexivity). discriminate.
  - assert (false = true) by (apply H1, H2; reflexivity). discriminate.
Qed.

(** ** What TrimSpace leaves of an ASCII text *)

Lemma list_ascii_of_string_app (a b : string) :
  list_ascii_of_string (a ++ b) =
  list_ascii_of_string a ++ list_ascii_of_string b.
Proof. induction a as [|c a IH]; cbn; [reflexivity | now rewrite IH]. Qed.

Lemma string_of_list_ascii_app (l1 l2 : list ascii) :
  string_of_list_ascii (l1 ++ l2) =
  (string_of_list_ascii l1 ++ string_of_list_ascii l2)%string.
Proof. induction l1 as [|c l1 IH]; cbn; [reflexivity | now rewrite IH]. Qed.

Lemma rev_string_app (a b : string) :
  rev_string (a ++ b) = (rev_string b ++ rev_string a)%string.
Proof.
  unfold rev_string.
  now rewrite list_ascii_of_string_app, rev_app_distr, string_of_list_ascii_app.
Qed.

Lemma rev_string_involutive (s : string) : rev_string (rev_string s) = s.
Proof.
  unfold rev_string.
  now rewrite list_ascii_of_string_of_list_ascii, rev_involutive,
    string_of_list_ascii_of_string.
Qed.

Lemma rev_string_cons (c : ascii) (s : string) :
  rev_string (String c s) = (rev_string s ++ String c EmptyString)%string.
Proof.
  change (String c s) with (String c EmptyString ++ s)%string.
  now rewrite rev_string_app.
Qed.

Lemma all_space_app (a b : string) :
  all_space (a ++ b) = all_space a && all_space b.
Proof.
  induction a as [|c a IH]; cbn; [reflexivity|].
  now rewrite IH, andb_assoc.
Qed.

Lemma is_ascii_app (a b : string) :
  is_ascii (a ++ b) = is_ascii a && is_ascii b.
Proof.
  induction a as [|c a IH]; cbn; [reflexivity|].
  now rewrite IH, andb_assoc.
Qed.

Lemma all_space_rev (s : string) : all_space (rev_string s) = all_space s.
Proof.
  induction s as [|c s IH]; [reflexivity|].
  rewrite rev_string_cons, all_space_app, IH. cbn.
  now rewrite andb_true_r, andb_comm.
Qed.

Lemma is_ascii_rev (s : string) : is_ascii (rev_string s) = is_ascii s.
Proof.
  induction s as [|c s IH]; [reflexivity|].
  rewrite rev_string_cons, is_ascii_app, IH. cbn.
  now rewrite andb_true_r, andb_comm.
Qed.

(** The second loop of [TrimSpace] on an ASCII text: it drops the leading
    space bytes of the reversed text and gives the rest back in order. *)
Lemma TrimSpace_stop_ascii (r : string) :
  is_ascii r = true ->
  exists sp r',
    r = (sp ++ r')%string /\ all_space sp = true /\
    TrimSpace_stop r = rev_string r' /\ head_is_space r' = false.
Proof.
  induction r as [|c r IH]; intros Hr.
  - exists EmptyString, EmptyString. repeat split.
  - cbn [is_ascii] in Hr. apply andb_prop in Hr. destruct Hr as [Hc Hr].
    apply N.ltb_lt in Hc. cbn [TrimSpace_stop].
    replace (RuneSelf <=? N_of_ascii c)%N with false
      by (symmetry; apply N.leb_gt; exact Hc).
    destruct (asciiSpace (N_of_ascii c)) eqn:Hsp.
    + destruct (IH Hr) as (sp & r' & -> & Hall & Hstop & Hhead).
      exists (String c sp), r'. cbn. rewrite Hsp, Hall. repeat split; assumption.
    + exists EmptyString, (String c r). cbn. rewrite Hsp. repeat split.
Qed.

(** [TrimSpace] on an ASCII text: the text is the result between two runs
    of space bytes, and the result neither starts nor ends with one. *)
Lemma TrimSpace_ascii (s : string) :
  is_ascii s = true ->
  exists pre post,
    s = (pre ++ TrimSpace s ++ post)%string /\
    all_space pre = true /\ all_space post = true /\
    head_is_space (TrimSpace s) = false /\
    head_is_space (rev_string (TrimSpace s)) = false.
Proof.
  induction s as [|c s IH]; intros Hs.
  - exists EmptyString, EmptyString. repeat split.
  - pose proof Hs as Hall. cbn [is_ascii] in Hs.
    apply andb_prop in Hs. destruct Hs as [Hc Hs].
    apply N.ltb_lt in Hc. cbn [TrimSpace].
    replace (RuneSelf <=? N_of_ascii c)%N with false
      by (symmetry; apply N.leb_gt; exact Hc).
    destruct (asciiSpace (N_of_ascii c)) eqn:Hsp.
    + destruct (IH Hs) as (pre & post & E & Hpre & Hpost & Hh & Hl).
      exists (String c pre), post. cbn. rewrite Hsp, Hpre.
      repeat split; try assumption. now rewrite <- E.
    + rewrite <- is_ascii_rev in Hall.
      destruct (TrimSpace_stop_ascii _ Hall) as (sp & r' & Er & Hsp' & Hstop & Hh).
      assert (Es : String c s = (rev_string r' ++ rev_string sp)%string).
      { rewrite <- rev_string_app, <- Er. now rewrite rev_string_involutive. }
      exists EmptyString, (rev_string sp). rewrite Hstop.
      split; [exact Es|]. split; [reflexivity|].
      split; [now rewrite all_space_rev|].
      split; [| now rewrite rev_string_involutive].
      destruct (rev_string r') as [|t T] eqn:ET.
      * reflexivity.
      * cbn in Es. injection Es as -> _. exact Hsp.
Qed.

(** X5: when the first STUDY_REF identifier of namespace BioProject has an
    ASCII text, the BioProject that [UnmarshalXML] stores is that text
    without the ASCII space bytes (tab, newline, vertical tab, form feed,
    carriage return, space) at its two ends: the text is the stored value
    between two runs of such bytes, and the stored value neither starts nor
    ends with one. *)
Theorem stored_bioproject_is_trimmed (ids : list externalID.t)
  (e : Experiment.t) (ex : externalID.t) :
  find (fun ex => (externalID.Namespace ex =? "BioProject")%string) ids
    = Some ex ->
  is_ascii (externalID.Value ex) = true ->
  let stored := Experiment.BioProject (UnmarshalXML_scan ids e) in
  exists pre post,
    externalID.Value ex = (pre ++ stored ++ post)%string /\
    all_space pre = true /\ all_space post = true /\
    head_is_space stored = false /\
    head_is_space (rev_string stored) = false.
Proof.
  intros Hfind Hascii. cbn zeta.
  rewrite UnmarshalXML_scan_find, Hfind.
  now apply TrimSpace_ascii.
Qed.

(** ** The trace of a worker *)

Lemma total_sleep_app (l1 l2 : list event) :
  total_sleep (l1 ++ l2) = total_sleep l1 + total_sleep l2.
Proof.
  induction l1 as [|[d|d|a|p| |e] l1 IH]; cbn [app total_sleep]; lia.
Qed.

Lemma sleepDuration_pos (a : nat) : 0 < sleepDuration a.
Proof.
  unfold sleepDuration, Second.
  assert (0 < 2 ^ Z.of_nat a) by (apply Z.pow_pos_nonneg; lia). lia.
Qed.

Lemma sleepDuration_mono (a r : nat) :
  sleepDuration a <= sleepDuration (a + r).
Proof.
  induction r as [|r IH]; [rewrite Nat.add_0_r; lia|].
  rewrite Nat.add_succ_r, sleepDuration_double.
  pose proof (sleepDuration_pos (a + r)). lia.
Qed.

(** What stands before the call of a turn after the first: the sleep, and
    the notice from the seventh turn on. *)
Lemma turn_prefix (attempt : nat) (tl : list event) :
  (1 <= attempt)%nat ->
  let pre :=
    (if (0 <? attempt)%nat
     then Sleep (sleepDuration attempt)
          :: (if (5 <? attempt)%nat
              then [LogRetrying (sleepDuration attempt)] else [])
     else []) in
  total_sleep (pre ++ tl) = sleepDuration attempt + total_sleep tl /\
  retry_logs (pre ++ tl) =
    ((if (5 <? attempt)%nat then 1 else 0) + retry_logs tl)%nat /\
  filter is_fetch pre = [] /\ sends pre = [] /\ adds pre = 0%nat /\
  failure_logs pre = 0%nat.
Proof.
  intros Ha. cbn zeta.
  replace (0 <? attempt)%nat with true by (symmetry; apply Nat.ltb_lt; lia).
  destruct (5 <? attempt)%nat; cbn; repeat split; lia.
Qed.

Lemma retry_logs_fetch (a : nat) (l : list event) :
  retry_logs (FetchBatch a :: l) = retry_logs l.
Proof. reflexivity. Qed.

Lemma total_sleep_loop (fetch : nat -> fetched) :
  forall (remaining attempt : nat) (err : option string),
    (1 <= attempt)%nat ->
    0 <= total_sleep (worker_loop remaining attempt err fetch)
      <= sleepDuration (attempt + remaining) - sleepDuration attempt /\
    (retry_logs (worker_loop remaining attempt err fetch)
     <= attempt + remaining - Nat.max attempt 6)%nat /\
    ((forall b, (attempt <= b < attempt + remaining)%nat ->
                exists e, fetch b = inr e) ->
     total_sleep (worker_loop remaining attempt err fetch)
     = sleepDuration (attempt + remaining) - sleepDuration attempt) /\
    (forall a pkgSet,
        (attempt <= a < attempt + remaining)%nat ->
        (forall b, (attempt <= b < a)%nat -> exists e, fetch b = inr e) ->
        fetch a = inl pkgSet ->
        total_sleep (worker_loop remaining attempt err fetch)
        = sleepDuration (S a) - sleepDuration attempt).
Proof.
  induction remaining as [|remaining IH]; intros attempt err Ha.
  - cbn [worker_loop total_sleep retry_logs filter List.length].
    rewrite Nat.add_0_r. repeat split; try lia. all: intros; lia.
  - cbn [worker_loop].
    destruct (turn_prefix attempt
                (FetchBatch attempt
                 :: match fetch attempt with
                    | inl pkgSet => [Send pkgSet; AddCompleted]
                    | inr e => worker_loop remaining (S attempt) (Some e) fetch
                    end) Ha) as (Hsleep & Hlogs & _).
    cbn zeta in Hsleep, Hlogs. rewrite Hsleep, Hlogs. clear Hsleep Hlogs.
    rewrite !retry_logs_fetch. cbn [total_sleep].
    pose proof (sleepDuration_pos attempt) as Hpos.
    pose proof (sleepDuration_double attempt) as Hdbl.
    pose proof (sleepDuration_mono (S attempt) remaining) as Hmono.
    replace (attempt + S remaining)%nat with (S attempt + remaining)%nat by lia.
    destruct (fetch attempt) as [pkgSet|e] eqn:Ef.
    + cbn [total_sleep retry_logs filter List.length].
      split; [lia|]. split; [destruct (5 <? attempt)%nat eqn:E5;
                               [apply Nat.ltb_lt in E5 | ]; lia|].
      split.
      * intros Hfail. destruct (Hfail attempt) as [e E]; [lia|]. congruence.
      * intros a p Hr Hbefore Hok.
        destruct (Nat.eq_dec a attempt) as [->|Hne]; [lia|].
        destruct (Hbefore attempt) as [e E]; [lia|]. congruence.
    + destruct (IH (S attempt) (Some e)) as (Hb & Hl & Hall & Hsucc); [lia|].
      split; [lia|]. split.
      * destruct (5 <? attempt)%nat eqn:E5;
          [apply Nat.ltb_lt in E5 | apply Nat.ltb_ge in E5]; lia.
      * split.
        -- intros Hfail. rewrite Hall; [lia|]. intros b Hb'. apply Hfail. lia.
        -- intros a p Hr Hbefore Hok.
           destruct (Nat.eq_dec a attempt) as [->|Hne]; [congruence|].
           rewrite (Hsucc a p); [lia | lia | | exact Hok].
           intros b Hb'. apply Hbefore. lia.
Qed.

(** X8: a worker never sleeps more than 126 seconds in all and prints the
    retry notice at most once; when the call of turn [a] is the first to
    succeed it has slept 2^(a+1) - 2 seconds, and when all seven calls fail
    it has slept the full 126 seconds. *)
Theorem backoff_budget (fetch : nat -> fetched) :
  0 <= total_sleep (worker fetch) <= 126 * Second /\
  (retry_logs (worker fetch) <= 1)%nat /\
  (forall a pkgSet,
      (a < maxRetries)%nat ->
      (forall b, (b < a)%nat -> exists e, fetch b = inr e) ->
      fetch a = inl pkgSet ->
      total_sleep (worker fetch) = (2 ^ (Z.of_nat a + 1) - 2) * Second) /\
  ((forall a, (a < maxRetries)%nat -> exists e, fetch a = inr e) ->
   total_sleep (worker fetch) = 126 * Second).
Proof.
  unfold worker, maxRetries.
  assert (Eloop : worker_loop 7 0 None fetch
                  = FetchBatch 0
                    :: match fetch 0%nat with
                       | inl pkgSet => [Send pkgSet; AddCompleted]
                       | inr e => worker_loop 6 1 (Some e) fetch
                       end) by reflexivity.
  rewrite Eloop. clear Eloop.
  rewrite !retry_logs_fetch. cbn [total_sleep].
  assert (E7 : sleepDuration 7 - sleepDuration 1 = 126 * Second) by reflexivity.
  assert (E1 : sleepDuration 1 = 2 * Second) by reflexivity.
  destruct (fetch 0%nat) as [p0|e0] eqn:E0.
  - cbn [total_sleep filter List.length]. unfold Second.
    split; [lia|]. split; [cbn; lia|]. split.
    + intros a p Ha Hbefore Hok.
      destruct a as [|a]; [reflexivity|].
      destruct (Hbefore 0%nat) as [e E]; [lia | congruence].
    + intros Hfail. destruct (Hfail 0%nat) as [e E]; [lia | congruence].
  - destruct (total_sleep_loop fetch 6 1 (Some e0)) as (Hb & Hl & Hall & Hsucc);
      [lia|].
    cbn [Nat.add] in Hb, Hl, Hall, Hsucc. rewrite E7 in Hb, Hall.
    split; [exact Hb|]. split; [cbn [Nat.max Nat.sub] in Hl; exact Hl|]. split.
    + intros a p Ha Hbefore Hok.
      destruct a as [|a]; [congruence|].
      rewrite (Hsucc (S a) p); [| lia | intros b Hb'; apply Hbefore; lia | exact Hok].
      rewrite E1. unfold sleepDuration.
      rewrite Nat2Z.inj_succ. unfold Z.succ. lia.
    + intros Hfail. apply Hall. intros b Hb'. apply Hfail. lia.
Qed.

Lemma worker_loop_success_shape (fetch : nat -> fetched) (a : nat)
  (pkgSet : ExperimentPackageSet.t) :
  forall (remaining attempt : nat) (err : option string),
    (attempt <= a < attempt + remaining)%nat ->
    (forall b, (attempt <= b < a)%nat -> exists e, fetch b = inr e) ->
    fetch a = inl pkgSet ->
    exists pre,
      worker_loop remaining attempt err fetch
      = pre ++ [FetchBatch a; Send pkgSet; AddCompleted] /\
      List.length (filter is_fetch pre) = (a - attempt)%nat /\
      sends pre = [] /\ adds pre = 0%nat /\ failure_logs pre = 0%nat.
Proof.
  induction remaining as [|remaining IH]; intros attempt err Ha Hfail Hok; [lia|].
  cbn [worker_loop].
  set (turn := if (0 <? attempt)%nat then _ else _).
  assert (Hturn : filter is_fetch turn = [] /\ sends turn = [] /\
                  adds turn = 0%nat /\ failure_logs turn = 0%nat).
  { unfold turn. destruct (0 <? attempt)%nat; [| now cbn].
    destruct (5 <? attempt)%nat; now cbn. }
  destruct Hturn as (T1 & T2 & T3 & T4).
  destruct (Nat.eq_dec attempt a) as [->|Hne].
  - rewrite Hok. exists turn. rewrite T1, Nat.sub_diag. now repeat split.
  - destruct (Hfail attempt) as [e E]; [lia|]. rewrite E.
    destruct (IH (S attempt) (Some e)) as (pre & Ep & P1 & P2 & P3 & P4);
      [lia | intros b Hb; apply Hfail; lia | exact Hok |].
    exists (turn ++ FetchBatch attempt :: pre).
    rewrite Ep. split; [now rewrite <- app_assoc|].
    unfold sends, adds, failure_logs in *.
    rewrite !filter_app, flat_map_app, !length_app, T1, T2. cbn.
    rewrite P1, P2, P3, P4, T3, T4. repeat split; lia.
Qed.

(** X7: when the call of turn [a] is the first to succeed, the trace of the
    worker ends with that call, the send of the decoded set and the
    increment of [completed], in this order and with nothing in between;
    before them it holds the [a] failed calls and no send, no increment and
    no failure line. *)
Theorem worker_success (fetch : nat -> fetched) (a : nat)
  (pkgSet : ExperimentPackageSet.t) :
  (a < maxRetries)%nat ->
  (forall b, (b < a)%nat -> exists e, fetch b = inr e) ->
  fetch a = inl pkgSet ->
  exists pre,
    worker fetch = pre ++ [FetchBatch a; Send pkgSet; AddCompleted] /\
    List.length (filter is_fetch pre) = a /\
    sends pre = [] /\ adds pre = 0%nat /\ failure_logs pre = 0%nat /\
    failure_logs (worker fetch) = 0%nat.
Proof.
  intros Ha Hfail Hok.
  destruct (worker_loop_success_shape fetch a pkgSet maxRetries 0 None)
    as (pre & E & P1 & P2 & P3 & P4);
    [lia | intros b Hb; apply Hfail; lia | exact Hok |].
  exists pre. fold (worker fetch) in E. rewrite Nat.sub_0_r in P1.
  repeat (split; [assumption|]).
  rewrite E. unfold failure_logs in *. rewrite filter_app, length_app, P4.
  reflexivity.
Qed.

(** ** The pipeline at the return of [main] *)



(** X10: the channel [results] never holds more sets than there are
    batches, and a worker whose next step is its send always finds room in
    it: the send does not block. *)
Theorem results_never_full (env : environment) (batches : list (list string))
  (st : state) :
  reachable env batches st ->
  (List.length (st_results st) <= List.length batches)%nat /\
  forall i pkgSet todo,
    nth_error (st_workers st) i = Some (Running (Send pkgSet :: todo)) ->
    (List.length (st_results st) < st_cap st)%nat /\
    exists st', worker_step i st = Some st' /\
                st_results st' = st_results st ++ [pkgSet].
Proof.
  intros Hreach. apply invariant_reachable in Hreach.
  pose proof (workers_within_cap env batches st Hreach) as Hle.
  destruct Hreach as [Hcap _ _ _ _ Hres].
  apply Permutation_length in Hres.
  pose proof (all_sends_length env (List.length (st_workers st))) as Hall.
  rewrite length_app in Hres.
  split; [lia|].
  intros i pkgSet todo Hnth.
  destruct (set_nth_split _ i _ Hnth) as (l1 & l2 & Hws & _ & _).
  assert (Hroom : (List.length (st_results st) < st_cap st)%nat).
  { rewrite Hws in Hres, Hall, Hle. rewrite flat_map_app, length_app in Hres.
    cbn [flat_map pending_sends sends app List.length] in Hres.
    rewrite length_app in Hres. cbn [List.length] in Hres. lia. }
  split; [exact Hroom|].
  unfold worker_step. rewrite Hnth.
  apply Nat.ltb_lt in Hroom. rewrite Hroom.
  eexists. split; reflexivity.
Qed.

Lemma sends_count_loop (fetch : nat -> fetched) :
  forall (remaining attempt : nat) (err : option string),
    List.length (sends (worker_loop remaining attempt err fetch))
    = if existsb (succeeds fetch) (seq attempt remaining) then 1%nat else 0%nat.
Proof.
  induction remaining as [|remaining IH]; intros attempt err; [reflexivity|].
  cbn [worker_loop seq existsb]. unfold sends in *. rewrite flat_map_app.
  set (turn := if (0 <? attempt)%nat then _ else _).
  assert (Hturn : flat_map (fun e => match e with Send p => [p] | _ => [] end) turn = []).
  { unfold turn. destruct (0 <? attempt)%nat; [| reflexivity].
    destruct (5 <? attempt)%nat; reflexivity. }
  rewrite Hturn. cbn [app flat_map]. unfold succeeds at 1.
  destruct (fetch attempt) as [pkgSet|e]; [reflexivity | apply IH].
Qed.

Lemma all_sends_count (env : environment) (n : nat) :
  List.length (all_sends env n)
  = List.length (filter (fetched_within_budget env) (seq 0 n)).
Proof.
  induction n as [|n IH]; [reflexivity|].
  rewrite all_sends_succ, seq_S, filter_app, !length_app, IH.
  f_equal. unfold worker. rewrite sends_count_loop.
  cbn [filter Nat.add]. unfold fetched_within_budget.
  destruct (existsb _ _); reflexivity.
Qed.

(** X11: [completed] never exceeds the number of batches, and when [main]
    has returned it is the number of sets in the channel, which is the
    number of batches for which one of the seven calls of [fetchBatch]
    succeeded (in a run with fewer than 2^31 batches). *)
Theorem completed_at_return (env : environment)
  (batches : list (list string)) (st : state) :
  Z.of_nat (List.length batches) < 2 ^ 31 ->
  reachable env batches st ->
  0 <= st_completed st <= Z.of_nat (List.length batches) /\
  forall tsv,
    st_main st = Finished tsv ->
    st_completed st = Z.of_nat (List.length (st_results st)) /\
    List.length (st_results st)
    = List.length (filter (fetched_within_budget env)
                     (seq 0 (List.length batches))).
Proof.
  intros Hsmall Hreach.
  destruct (completed_bounded env batches st Hsmall Hreach) as [Hc Hle].
  split; [lia|].
  intros tsv Em.
  destruct (completed_counts_fetched env batches st tsv Hsmall Hreach Em)
    as [Hcount Hperm].
  split; [exact Hcount|].
  now rewrite (Permutation_length Hperm), all_sends_count.
Qed.

(** ** The file *)



(** X12: the file does not depend on the schedule but for the order of its
    lines: two runs of [main] to its end, on the same batches and the same
    network, leave files that both start with the header and hold the same
    lines, each as many times, possibly in another order. *)
Theorem output_independent_of_schedule (env : environment)
  (batches : list (list string)) (sched1 sched2 : list action)
  (st1 st2 : state) (file1 file2 : File) :
  run env sched1 (init_state batches) = Some st1 ->
  run env sched2 (init_state batches) = Some st2 ->
  st_main st1 = Finished (Some file1) ->
  st_main st2 = Finished (Some file2) ->
  Permutation file1 file2 /\
  hd_error file1 = Some header /\ hd_error file2 = Some header /\
  List.length file1 = List.length file2.
Proof.
  intros Hrun1 Hrun2 Em1 Em2.
  assert (Hinv1 : invariant env batches st1)
    by (apply invariant_reachable; now exists sched1).
  assert (Hinv2 : invariant env batches st2)
    by (apply invariant_reachable; now exists sched2).
  destruct (finished_state env batches st1 _ Hinv1 Em1) as (Hf1 & Hp1 & _).
  destruct (finished_state env batches st2 _ Hinv2 Em2) as (Hf2 & Hp2 & _).
  unfold output_of in Hf1, Hf2.
  destruct (create_ok env); [| discriminate].
  rewrite write_results_lines in Hf1, Hf2.
  injection Hf1 as ->. injection Hf2 as ->. cbn [WriteString app].
  assert (Hperm : Permutation (lines_of (st_results st1)) (lines_of (st_results st2))).
  { unfold lines_of. apply Permutation_flat_map.
    now rewrite Hp1, Hp2. }
  repeat split; try reflexivity.
  - now constructor.
  - cbn [List.length]. f_equal. now apply Permutation_length.
Qed.

(** X14: a line written for ten values none of which holds a tab or a
    newline reads back, split at its tabs up to its newline, as exactly
    these ten values in order (nothing is quoted or escaped, so this is
    what keeps the columns apart). *)
Theorem row_reads_back (c1 c2 c3 c4 c5 c6 c7 c8 c9 c10 : string) :
  Forall (fun c => plain c = true) [c1; c2; c3; c4; c5; c6; c7; c8; c9; c10] ->
  split_line (Sprintf_row c1 c2 c3 c4 c5 c6 c7 c8 c9 c10)
  = [c1; c2; c3; c4; c5; c6; c7; c8; c9; c10].
Proof.
  intros Hall.
  repeat match goal with
         | H : Forall _ (_ :: _) |- _ => inversion H; subst; clear H
         end.
  unfold Sprintf_row, tab, newline. cbn [String.append].
  rewrite !split_line_tab by assumption.
  now rewrite split_line_newline by assumption.
Qed.

(** ** The monitor and the rest of the program *)

Lemma monitor_step_core (st st' : state) :
  monitor_step st = Some st' -> core st' = core st.
Proof.
  unfold monitor_step. destruct (st_monitor st); [| discriminate].
  intros H. injection H as <-. reflexivity.
Qed.

Lemma step_core (env : environment) (a : action) (st1 st2 st1' : state) :
  is_monitor a = false ->
  core st1 = core st2 ->
  step env a st1 = Some st1' ->
  exists st2', step env a st2 = Some st2' /\ core st1' = core st2'.
Proof.
  intros Ha Hcore Hstep.
  destruct st1 as [m total cap sem wg ws comp res lst1 mon1 bar1 err].
  destruct st2 as [m2 total2 cap2 sem2 wg2 ws2 comp2 res2 lst2 mon2 bar2 err2].
  unfold core in Hcore. cbn in Hcore. injection Hcore as <- <- <- <- <- <- <- <- <-.
  unfold step in *. fields.
  destruct (is_finished m); [discriminate|].
  destruct a as [|i|]; [| | discriminate].
  - unfold main_step, with_main in *. fields.
    destruct m as [[|batch rest] next|batch rest next| | |tsv]; fields.
    + injection Hstep as <-. eexists. split; reflexivity.
    + injection Hstep as <-. eexists. split; reflexivity.
    + destruct (sem <? maxWorkers)%nat; [| discriminate].
      injection Hstep as <-. eexists. split; reflexivity.
    + destruct (wg =? 0)%nat; [| discriminate].
      injection Hstep as <-. eexists. split; reflexivity.
    + destruct (create_ok env); injection Hstep as <-;
        eexists; split; reflexivity.
    + discriminate.
  - unfold worker_step, with_worker in *. fields.
    destruct (nth_error ws i) as [[[|ev todo]| |]|]; try discriminate.
    + injection Hstep as <-. eexists. split; reflexivity.
    + destruct ev as [d|d|at_|pkgSet| |e]; fields;
        try (injection Hstep as <-; eexists; split; reflexivity).
      destruct (List.length res <? cap)%nat; [| discriminate].
      injection Hstep as <-. eexists. split; reflexivity.
    + injection Hstep as <-. eexists. split; reflexivity.
Qed.

Lemma run_core (env : environment) :
  forall (sched : list action) (st1 st2 st1' : state),
    core st1 = core st2 ->
    run env sched st1 = Some st1' ->
    exists st2',
      run env (without_monitor sched) st2 = Some st2' /\ core st2' = core st1'.
Proof.
  induction sched as [|a sched IH]; intros st1 st2 st1' Hcore Hrun.
  - cbn in *. injection Hrun as <-. exists st2. now split.
  - cbn [run] in Hrun.
    destruct (step env a st1) as [s1|] eqn:E; [| discriminate].
    unfold without_monitor. cbn [filter]. fold (without_monitor sched).
    destruct (is_monitor a) eqn:Ha; cbn [negb].
    + destruct a; try discriminate. unfold step in E.
      destruct (is_finished (st_main st1)); [discriminate|].
      apply monitor_step_core in E.
      apply (IH s1 st2 st1'); [congruence | exact Hrun].
    + destruct (step_core env a st1 st2 s1 Ha Hcore E) as (s2 & E2 & Hc).
      cbn [run]. rewrite E2. now apply (IH s1 s2 st1').
Qed.

(** X15: the monitor does not influence the rest of the program: taking the
    turns of the monitor out of any run leaves a run that ends with the
    same main goroutine, workers, semaphore, WaitGroup, counter, channel
    content, log and (when [main] has returned) file. *)
Theorem monitor_does_not_interfere (env : environment)
  (sched : list action) (st st' : state) :
  run env sched st = Some st' ->
  exists st'',
    run env (without_monitor sched) st = Some st'' /\
    core st'' = core st' /\
    st_main st'' = st_main st' /\
    st_results st'' = st_results st' /\
    st_completed st'' = st_completed st'.
Proof.
  intros Hrun.
  destruct (run_core env sched st st st' eq_refl Hrun) as (st'' & Hrun' & Hc).
  exists st''. split; [exact Hrun'|]. split; [exact Hc|].
  unfold core in Hc. injection Hc as H1 _ _ _ _ _ H7 H8 _.
  repeat split; assumption.
Qed.

(** ** The requests of the batches *)





End Pipeline.

(* ================================================================== *)
(** * Instances on concrete inputs *)

Lemma backoff_wait_witness :
  (1 < maxRetries)%nat /\
  wait_before 1 (worker (fun _ => inr "connection reset"%string))
    = Some (2 ^ (Z.of_nat 0 + 1) * Second) /\
  wait_before 2 (worker (fun _ => inr "connection reset"%string))
    = Some (2 * (2 ^ (Z.of_nat 0 + 1) * Second)).
Proof.
  split; [unfold maxRetries; lia|].
  destruct (backoff_wait (fun _ => inr "connection reset"%string) 0)
    as [H1 H2].
  - unfold maxRetries; lia.
  - intros a _. now exists "connection reset"%string.
  - split; [exact H1|]. apply H2.
    + unfold maxRetries; lia.
    + now exists "connection reset"%string.
Defined.

(** C6 as stated fails after the first failure: the worker sleeps two
    seconds before the call of turn 1, not 2^0 = 1 second. *)
Lemma backoff_first_wait_is_not_one :
  wait_before 1 (worker (fun _ => inr "connection reset"%string))
    <> Some (2 ^ 0 * Second).
Proof. vm_compute. discriminate. Qed.

(** Two batches, the first giving [two_run_package] at the first call,
    the second failing on all seven: in the run [schedule_one_of_two] the
    second worker calls seven times and sends nothing, [main] returns, and
    the file is the header and the two lines of the first batch. *)
Lemma failed_batch_is_dropped_witness :
  (1 < List.length [repeat "SRX1"%string 100; ["SRX2"%string]])%nat /\
  (forall a, (a < maxRetries)%nat ->
     fetchBatch second_failing_env 1 a = inr "connection reset"%string) /\
  List.length (filter is_fetch (worker (fetchBatch second_failing_env 1)))
    = 7%nat /\
  sends (worker (fetchBatch second_failing_env 1)) = [] /\
  last (worker (fetchBatch second_failing_env 1)) (LogFailed None)
    = LogFailed (Some "connection reset"%string) /\
  exists st file,
    run ascii_only_fold second_failing_env schedule_one_of_two
      (init_state [repeat "SRX1"%string 100; ["SRX2"%string]]) = Some st /\
    (productive schedule_one_of_two + work_left second_failing_env st)%nat
      = work_left second_failing_env
          (init_state [repeat "SRX1"%string 100; ["SRX2"%string]]) /\
    work_left second_failing_env st = 0%nat /\
    st_results st = [ExperimentPackageSet.mk [two_run_package]] /\
    st_main st = Finished (Some file) /\
    file =
      [header;
       ("SRR1" ++ tab ++ "PRJNA7" ++ tab ++ "SAMN7" ++ tab ++ tab ++ tab ++
        "USA" ++ tab ++ tab ++ "100" ++ tab ++ "2024-02-01" ++ tab ++
        "2024-02-02" ++ newline)%string;
       ("SRR2" ++ tab ++ "PRJNA7" ++ tab ++ "SAMN7" ++ tab ++ tab ++ tab ++
        "USA" ++ tab ++ tab ++ tab ++ "2024-03-01" ++ tab ++
        "2024-03-02" ++ newline)%string] /\
    In ("SRR2" ++ tab ++ "PRJNA7" ++ tab ++ "SAMN7" ++ tab ++ tab ++ tab ++
        "USA" ++ tab ++ tab ++ tab ++ "2024-03-01" ++ tab ++
        "2024-03-02" ++ newline)%string file.
Proof.
  split; [cbn; lia|]. split; [reflexivity|].
  destruct (failed_batch_is_dropped ascii_only_fold second_failing_env
              [repeat "SRX1"%string 100; ["SRX2"%string]] 1
              (fun _ => "connection reset"%string))
    as (_ & H2 & H3 & H4 & Hruns).
  - cbn; lia.
  - reflexivity.
  - split; [exact H2|]. split; [exact H3|]. split; [exact H4|].
    assert (Hrun :
              exists st,
                run ascii_only_fold second_failing_env schedule_one_of_two
                  (init_state [repeat "SRX1"%string 100; ["SRX2"%string]])
                = Some st)
      by (eexists; vm_compute; reflexivity).
    destruct Hrun as [st Hrun].
    destruct (Hruns _ st Hrun) as (Hwork & _ & _ & Hend).
    assert (Hst : exists tsv, st_main st = Finished tsv /\
                              st_results st
                              = [ExperimentPackageSet.mk [two_run_package]]).
    { vm_compute in Hrun. injection Hrun as <-. eexists. split; reflexivity. }
    destruct Hst as (tsv & Em & Hres).
    destruct (Hend tsv Em) as (Hzero & _ & _ & Hfile).
    destruct (Hfile eq_refl) as (file & -> & Efile & Hin).
    exists st, file.
    split; [exact Hrun|]. split; [exact Hwork|]. split; [exact Hzero|].
    split; [exact Hres|]. split; [exact Em|].
    split; [rewrite Efile, Hres; reflexivity|].
    apply (Hin 0%nat 0%nat (ExperimentPackageSet.mk [two_run_package])
             two_run_package (Run.mk "SRR2" "" "" "" "")).
    + cbn; lia.
    + unfold maxRetries; lia.
    + intros b Hb. lia.
    + reflexivity.
    + now left.
    + right. now left.
Defined.

(** The two runs of [two_run_package], the second with nothing but its
    accession: two lines after the header, with the same BioProject,
    BioSample and location, the second with the dates of the package. *)
Lemma one_row_per_run_witness :
  Forall (fun c => plain c = true)
    ["SRR2"; "PRJNA7"; "SAMN7"; ""; ""; "USA"; ""; ""; "2024-03-01";
     "2024-03-02"]%string /\
  writePackage ascii_only_fold two_run_package [header] =
    [header;
     ("SRR1" ++ tab ++ "PRJNA7" ++ tab ++ "SAMN7" ++ tab ++ tab ++ tab ++
      "USA" ++ tab ++ tab ++ "100" ++ tab ++ "2024-02-01" ++ tab ++
      "2024-02-02" ++ newline)%string;
     ("SRR2" ++ tab ++ "PRJNA7" ++ tab ++ "SAMN7" ++ tab ++ tab ++ tab ++
      "USA" ++ tab ++ tab ++ tab ++ "2024-03-01" ++ tab ++
      "2024-03-02" ++ newline)%string] /\
  List.length (writePackage ascii_only_fold two_run_package [header]) = 3%nat /\
  split_line
    ("SRR2" ++ tab ++ "PRJNA7" ++ tab ++ "SAMN7" ++ tab ++ tab ++ tab ++
     "USA" ++ tab ++ tab ++ tab ++ "2024-03-01" ++ tab ++
     "2024-03-02" ++ newline)%string
  = ["SRR2"; "PRJNA7"; "SAMN7"; ""; ""; "USA"; ""; ""; "2024-03-01";
     "2024-03-02"]%string.
Proof.
  assert (Hplain :
            Forall (fun c => plain c = true)
              ["SRR2"; "PRJNA7"; "SAMN7"; ""; ""; "USA"; ""; "";
               "2024-03-01"; "2024-03-02"]%string)
    by (repeat constructor).
  destruct (one_row_per_run ascii_only_fold two_run_package [header])
    as (Hfile & Hlen & _ & Hsplit).
  split; [exact Hplain|].
  split; [exact Hfile|].
  split; [exact Hlen|].
  exact (Hsplit (Run.mk "SRR2" "" "" "" "") Hplain).
Defined.

Lemma fetching_workers_bounded_witness :
  exists st,
    run ascii_only_fold failing_env [MainStep; MainStep]
      (init_state [["SRX1"%string]]) = Some st /\
    (in_fetch st <= in_flight st)%nat /\
    in_flight st = st_sem st /\
    (in_flight st <= maxWorkers)%nat /\
    maxWorkers = 10%nat.
Proof.
  eexists. split; [reflexivity|].
  apply (fetching_workers_bounded ascii_only_fold failing_env [["SRX1"%string]]).
  exists [MainStep; MainStep]. reflexivity.
Defined.

Lemma bioproject_precedence_witness :
  bioproject_of ascii_only_fold
    (example_package ascii_only_trim ascii_only_trim) = "PRJNA000"%string.
Proof.
  destruct (bioproject_precedence ascii_only_fold ascii_only_trim ascii_only_trim
              (decoded_experiment "PRJNA000")
              (experiment_of ascii_only_trim ascii_only_trim
                 (decoded_experiment "PRJNA000"))
              (example_package ascii_only_trim ascii_only_trim)
              eq_refl eq_refl eq_refl) as [H _].
  exact H.
Defined.

(** C4 as stated fails on [padded_package]: the text of the STUDY_REF
    identifier is " PRJNA000", with a leading space, and the column holds
    "PRJNA000": the first non-empty candidate as it stands is not what is
    written. *)
Lemma bioproject_is_trimmed :
  ~ (bioproject_of ascii_only_fold
       (padded_package ascii_only_trim ascii_only_trim) =
     first_nonempty
       [match find (fun ex => (externalID.Namespace ex =? "BioProject")%string)
                   (studyRef.ExternalIDs
                      (Experiment.Study (decoded_experiment " PRJNA000"))) with
        | Some ex => externalID.Value ex
        | None => EmptyString
        end;
        extractIdentifier
          (Sample.Identifiers
             (ExperimentPackage.Sample
                (padded_package ascii_only_trim ascii_only_trim)))
          "BioProject";
        extractSampleValue ascii_only_fold
          (Sample.Attributes
             (ExperimentPackage.Sample
                (padded_package ascii_only_trim ascii_only_trim)))
          "bioproject"]).
Proof. vm_compute. discriminate. Qed.

(** An experiment-level text of white space only is empty once trimmed:
    the column then holds the bioproject attribute of the sample. *)
Lemma bioproject_blank_falls_through :
  bioproject_of ascii_only_fold
    (blank_package ascii_only_trim ascii_only_trim) = "PRJNA999"%string.
Proof. reflexivity. Qed.

(** C5 as stated fails: the line of the example has five tabs after the
    collection date, not six. *)
Lemma end_to_end_example_has_ten_columns :
  contents
    (write_results ascii_only_fold
       [ExperimentPackageSet.mk
          [example_package ascii_only_trim ascii_only_trim]]
       (WriteString [] header)) <>
  (header ++
   "SRR000001" ++ tab ++ "PRJNA000" ++ tab ++ "SAMN000" ++ tab ++
   "ACME Lab" ++ tab ++ "2024-01-01" ++
   tab ++ tab ++ tab ++ tab ++ tab ++ tab ++ newline)%string.
Proof. vm_compute. discriminate. Qed.


Lemma progress_values_increase_witness :
  Z.of_nat (List.length [["SRX1"%string]]) < 2 ^ 31 /\
  exists st,
    run ascii_only_fold prompt_env
      ([MainStep; MainStep] ++ repeat (WorkerStep 0) 5 ++ [MonitorStep])
      (init_state [["SRX1"%string]]) = Some st /\
    st_total st = 1 /\
    StronglySorted Z.lt (delivered (st_bar st)) /\
    Forall (fun v => 1 <= v <= st_total st) (delivered (st_bar st)) /\
    (st_monitor st = false -> last (delivered (st_bar st)) 0 = st_total st).
Proof.
  split; [cbn; lia|].
  eexists. split; [vm_compute; reflexivity|].
  apply (progress_values_increase ascii_only_fold prompt_env [["SRX1"%string]]).
  - cbn; lia.
  - exists ([MainStep; MainStep] ++ repeat (WorkerStep 0) 5 ++ [MonitorStep]).
    vm_compute; reflexivity.
Defined.

(** C2 as stated fails on 101 identifiers (two batches) that are both
    fetched at the first call: in the run [schedule_lagging] the monitor
    polls once, after the first worker, and [main] returns before it polls
    again; the last value the bar received is 1, not 2. *)
Lemma progress_can_end_below_total :
  ~ (forall st0 sched st,
        main_init (repeat "SRX1"%string 101) = Returned st0 ->
        run ascii_only_fold prompt_env sched st0 = Some st ->
        is_finished (st_main st) = true ->
        last (delivered (st_bar st)) 0 = st_total st).
Proof.
  intros Hclaim.
  assert (E0 : main_init (repeat "SRX1"%string 101)
               = Returned (init_state [repeat "SRX1"%string 100; ["SRX1"%string]]))
    by (vm_compute; reflexivity).
  assert (E : exists st,
             run ascii_only_fold prompt_env schedule_lagging
               (init_state [repeat "SRX1"%string 100; ["SRX1"%string]]) = Some st /\
             is_finished (st_main st) = true /\
             last (delivered (st_bar st)) 0 = 1 /\
             st_total st = 2).
  { eexists. split; [vm_compute; reflexivity | repeat split]. }
  destruct E as (st & Hrun & Hfin & Hlast & Htot).
  specialize (Hclaim _ _ st E0 Hrun Hfin).
  rewrite Hlast, Htot in Hclaim. discriminate Hclaim.
Qed.

(* ------------------------------------------------------------------ *)
(** ** Instances of the further properties *)

Lemma submitter_precedence_witness :
  Organization.Name (ExperimentPackage.Organization fallback_package)
    = EmptyString /\
  submitter_of ascii_only_fold fallback_package = "Lab X"%string.
Proof.
  split; [reflexivity|].
  destruct (submitter_precedence ascii_only_fold fallback_package) as [H _].
  exact H.
Defined.

Lemma chunkIDs_bad_size_witness :
  -1 < 0 /\
  chunkIDs ["SRX1"%string] (-1) = Panicked /\
  ["SRX1"%string] <> [] /\
  chunkIDs_loop 5 ["SRX1"%string] [] 0 = OutOfFuel.
Proof.
  destruct chunkIDs_bad_size as (Hneg & Hzero & _).
  split; [lia|]. split; [apply Hneg; lia|].
  split; [discriminate|]. apply Hzero. discriminate.
Defined.

Lemma main_batches_witness :
  exists batches,
    main_init [] = Returned (init_state batches) /\ batches = [[]].
Proof.
  destruct (main_batches []) as (batches & E & _ & _ & _ & _ & Hempty).
  exists batches. split; [exact E | now apply Hempty].
Defined.

Lemma UnmarshalXML_frame_witness :
  exists e,
    UnmarshalXML ascii_only_trim ascii_only_trim (inl decoded_without_bioproject)
      = inl e /\
    Experiment.Accession e = "SRX1"%string /\
    Experiment.BioProject e = EmptyString.
Proof.
  destruct (UnmarshalXML_frame ascii_only_trim ascii_only_trim) as [_ H].
  destruct (H decoded_without_bioproject) as (e & E & Hacc & _ & _ & _ & Hbp).
  exists e. split; [exact E|]. split; [exact Hacc|].
  apply Hbp. intros ex [<-|[]]. discriminate.
Defined.

Lemma stored_bioproject_is_trimmed_witness :
  let stored :=
    Experiment.BioProject
      (UnmarshalXML_scan ascii_only_trim ascii_only_trim
         [externalID.mk "BioProject" " PRJNA000 "]
         (decoded_experiment " PRJNA000 ")) in
  exists pre post,
    " PRJNA000 "%string = (pre ++ stored ++ post)%string /\
    all_space pre = true /\ all_space post = true /\
    head_is_space stored = false /\
    head_is_space (rev_string stored) = false.
Proof.
  apply (stored_bioproject_is_trimmed ascii_only_trim ascii_only_trim
           [externalID.mk "BioProject" " PRJNA000 "]
           (decoded_experiment " PRJNA000 ")
           (externalID.mk "BioProject" " PRJNA000 "));
    reflexivity.
Defined.

Lemma lookup_ignores_key_case_witness :
  extractSampleValue ascii_only_fold
    [SampleAttribute.mk "Collection_Date" "2024-01-01"] "collection_date"
  = extractSampleValue ascii_only_fold
      [SampleAttribute.mk "Collection_Date" "2024-01-01"] "COLLECTION_DATE".
Proof.
  apply lookup_ignores_key_case; try reflexivity.
  repeat constructor.
Defined.

Lemma worker_success_witness :
  (2 < maxRetries)%nat /\
  exists pre,
    worker third_call_succeeds
    = pre ++ [FetchBatch 2; Send (ExperimentPackageSet.mk []); AddCompleted] /\
    List.length (filter is_fetch pre) = 2%nat /\
    sends pre = [] /\ adds pre = 0%nat /\ failure_logs pre = 0%nat /\
    failure_logs (worker third_call_succeeds) = 0%nat.
Proof.
  split; [unfold maxRetries; lia|].
  apply (worker_success third_call_succeeds 2 (ExperimentPackageSet.mk [])).
  - unfold maxRetries; lia.
  - intros b Hb. exists "connection reset"%string.
    destruct b as [|[|b]]; [reflexivity | reflexivity | lia].
  - reflexivity.
Defined.

Lemma backoff_budget_witness :
  total_sleep (worker third_call_succeeds) = (2 ^ (Z.of_nat 2 + 1) - 2) * Second /\
  total_sleep (worker (fetchBatch failing_env 0)) = 126 * Second.
Proof.
  split.
  - destruct (backoff_budget third_call_succeeds) as (_ & _ & Hsucc & _).
    apply (Hsucc 2%nat (ExperimentPackageSet.mk [])).
    + unfold maxRetries; lia.
    + intros b Hb. exists "connection reset"%string.
      destruct b as [|[|b]]; [reflexivity | reflexivity | lia].
    + reflexivity.
  - destruct (backoff_budget (fetchBatch failing_env 0)) as (_ & _ & _ & Hall).
    apply Hall. intros a _. now exists "connection reset"%string.
Defined.


Lemma results_never_full_witness :
  exists st,
    run ascii_only_fold prompt_env [MainStep; MainStep; WorkerStep 0]
      (init_state [["SRX1"%string]]) = Some st /\
    (List.length (st_results st) <= List.length [["SRX1"%string]])%nat /\
    forall i pkgSet todo,
      nth_error (st_workers st) i = Some (Running (Send pkgSet :: todo)) ->
      (List.length (st_results st) < st_cap st)%nat /\
      exists st', worker_step i st = Some st' /\
                  st_results st' = st_results st ++ [pkgSet].
Proof.
  eexists. split; [vm_compute; reflexivity|].
  apply (results_never_full ascii_only_fold prompt_env [["SRX1"%string]]).
  exists [MainStep; MainStep; WorkerStep 0]. vm_compute; reflexivity.
Defined.

Lemma completed_at_return_witness :
  Z.of_nat (List.length [["SRX1"%string]]) < 2 ^ 31 /\
  exists st,
    run ascii_only_fold failing_env schedule_one_failing
      (init_state [["SRX1"%string]]) = Some st /\
    0 <= st_completed st <= Z.of_nat (List.length [["SRX1"%string]]) /\
    forall tsv,
      st_main st = Finished tsv ->
      st_completed st = Z.of_nat (List.length (st_results st)) /\
      List.length (st_results st)
      = List.length (filter (fetched_within_budget failing_env)
                       (seq 0 (List.length [["SRX1"%string]]))).
Proof.
  split; [cbn; lia|].
  eexists. split; [vm_compute; reflexivity|].
  apply (completed_at_return ascii_only_fold failing_env [["SRX1"%string]]).
  - cbn; lia.
  - exists schedule_one_failing. vm_compute; reflexivity.
Defined.

Lemma output_independent_of_schedule_witness :
  exists st1 st2 file1 file2,
    run ascii_only_fold (two_sets_env ascii_only_trim ascii_only_trim)
      schedule_first_then_second
      (init_state [["SRX1"%string]; ["SRX2"%string]]) = Some st1 /\
    run ascii_only_fold (two_sets_env ascii_only_trim ascii_only_trim)
      schedule_second_then_first
      (init_state [["SRX1"%string]; ["SRX2"%string]]) = Some st2 /\
    st_main st1 = Finished (Some file1) /\
    st_main st2 = Finished (Some file2) /\
    file1 <> file2 /\
    Permutation file1 file2 /\
    hd_error file1 = Some header /\ hd_error file2 = Some header /\
    List.length file1 = List.length file2.
Proof.
  do 4 eexists.
  split; [vm_compute; reflexivity|]. split; [vm_compute; reflexivity|].
  split; [reflexivity|]. split; [reflexivity|].
  split; [discriminate|].
  eapply (output_independent_of_schedule ascii_only_fold
            (two_sets_env ascii_only_trim ascii_only_trim)
            [["SRX1"%string]; ["SRX2"%string]]
            schedule_first_then_second schedule_second_then_first).
  - vm_compute; reflexivity.
  - vm_compute; reflexivity.
  - reflexivity.
  - reflexivity.
Defined.

Lemma row_reads_back_witness :
  split_line
    (Sprintf_row "SRR000001" "PRJNA000" "SAMN000" "ACME Lab" "2024-01-01"
       "" "" "" "" "")
  = ["SRR000001"; "PRJNA000"; "SAMN000"; "ACME Lab"; "2024-01-01";
     ""; ""; ""; ""; ""]%string.
Proof.
  apply row_reads_back. repeat constructor.
Defined.

Lemma monitor_does_not_interfere_witness :
  exists st' st'',
    run ascii_only_fold first_only_env schedule_one_of_two
      (init_state [["SRX1"%string]; ["SRX2"%string]]) = Some st' /\
    run ascii_only_fold first_only_env (without_monitor schedule_one_of_two)
      (init_state [["SRX1"%string]; ["SRX2"%string]]) = Some st'' /\
    core st'' = core st' /\
    st_main st'' = st_main st' /\
    st_results st'' = st_results st' /\
    st_completed st'' = st_completed st'.
Proof.
  eexists.
  assert (Hrun : run ascii_only_fold first_only_env schedule_one_of_two
                   (init_state [["SRX1"%string]; ["SRX2"%string]]) = Some _)
    by (vm_compute; reflexivity).
  destruct (monitor_does_not_interfere ascii_only_fold first_only_env _ _ _ Hrun)
    as (st'' & H).
  exists st''. split; [exact Hrun | exact H].
Defined.

